(** * gr-osmosdr, bladeRF sink: burst transmission, failure accounting,
      buffer policy and the device registry

    A shallow embedding of
      - [lib/bladerf/bladerf_sink_c.cc]: [start], [stop],
        [transmit_with_tags], [work];
      - [lib/bladerf/bladerf_common.cc]: [get_cached_device], [close], [open],
        [start], [stop] and the buffer configuration at the end of [init].

    The C++ members of the sink are fields of a record; the calls made on
    the device handle and the lines written to [std::cerr] are appended to
    two traces carried in the same record.  The device itself (libbladeRF)
    is a parameter: a function that gives the status of a call from the
    calls made before it. *)

From Stdlib Require Import ZArith List String Bool Lia ZifyBool DecimalString.
Import ListNotations.
Local Open Scope Z_scope.

(** ** A state monad with exceptions

    [Val a] is a normal return, [Exn what] a C++ exception that left the
    function ([std::runtime_error], [boost::bad_weak_ptr], ...). *)

Inductive res (A : Type) : Type :=
| Val (a : A)
| Exn (what : string).
Arguments Val {A} a.
Arguments Exn {A} what.

Definition M (S A : Type) : Type := S -> res A * S.

Definition ret {S A} (a : A) : M S A := fun s => (Val a, s).

Definition bind {S A B} (m : M S A) (k : A -> M S B) : M S B :=
  fun s => match m s with
           | (Val a, s') => k a s'
           | (Exn e, s') => (Exn e, s')
           end.

Definition throw {S A} (what : string) : M S A := fun s => (Exn what, s).

Definition gets {S A} (f : S -> A) : M S A := fun s => (Val (f s), s).

Definition modify {S} (f : S -> S) : M S unit := fun s => (Val tt, f s).

Declare Scope monad_scope.
Delimit Scope monad_scope with monad.
Notation "x <- c1 ;; c2" := (bind c1 (fun x => c2))
  (at level 61, c1 at next level, right associativity) : monad_scope.
Notation "c1 ;; c2" := (bind c1 (fun _ => c2))
  (at level 61, right associativity) : monad_scope.
Local Open Scope monad_scope.

(** ** Machine integers

    [tag.offset] and [nitems_read(0)] are [uint64_t]; their difference wraps
    modulo 2^64 and [static_cast<int>] keeps the low 32 bits as a signed
    value.  The [int] arithmetic on indices ([end_idx - start_idx + 1],
    [2*start_idx], [noutput_items - 1]) is written in [Z]: signed overflow
    has no defined result in C++, and [rel_offset_in_window] below shows
    that the indices of tags delivered by the scheduler are in
    [0, noutput_items). *)

Definition to_uint64 (z : Z) : Z := z mod 2 ^ 64.
Definition to_uint (z : Z) : Z := z mod 2 ^ 32.
Definition to_int (z : Z) : Z := (z + 2 ^ 31) mod 2 ^ 32 - 2 ^ 31.

Definition INT_MAX : Z := 2 ^ 31 - 1.

(** ** Constants of libbladeRF and GNU Radio used by the sink *)

(** libbladeRF.h: [#define BLADERF_ERR_INVAL (-3)]. *)
Definition BLADERF_ERR_INVAL : Z := -3.
(** libbladeRF.h: [BLADERF_META_FLAG_TX_BURST_START (1 << 0)],
    [BLADERF_META_FLAG_TX_BURST_END (1 << 1)],
    [BLADERF_META_FLAG_TX_NOW (1 << 2)]. *)
Definition BLADERF_META_FLAG_TX_BURST_START : Z := Z.shiftl 1 0.
Definition BLADERF_META_FLAG_TX_BURST_END : Z := Z.shiftl 1 1.
Definition BLADERF_META_FLAG_TX_NOW : Z := Z.shiftl 1 2.
(** gnuradio/block.h: [WORK_DONE = -1]. *)
Definition WORK_DONE : Z := -1.
(** bladerf_sink_c.cc: [#define INVALID_IDX -1]. *)
Definition INVALID_IDX : Z := -1.
(** bladerf_common.cc. *)
Definition NUM_BUFFERS : Z := 32.
Definition NUM_SAMPLES_PER_BUFFER : Z := 4 * 1024.

Inductive bladerf_module : Type := BLADERF_MODULE_RX | BLADERF_MODULE_TX.
Inductive bladerf_format : Type :=
  BLADERF_FORMAT_SC16_Q11 | BLADERF_FORMAT_SC16_Q11_META.

(** ** Calls on the device handle *)

(** The sample buffer handed to [bladerf_sync_tx]: either the address
    [&_conv_buf[idx]] inside the conversion buffer, or a local array given
    by its [int16_t] contents. *)
Inductive buffer : Type :=
| conv_buf_at (idx : Z)
| local_buf (contents : list Z).

(** [meta] is [None] for a [NULL] metadata pointer, otherwise the value of
    [meta.flags] at the time of the call. *)
Inductive dev_call : Type :=
| sync_tx (samples : buffer) (num_samples : Z) (meta : option Z)
          (timeout_ms : Z)
| sync_config (module : bladerf_module) (format : bladerf_format)
              (num_buffers buffer_size num_transfers timeout_ms : Z)
| enable_module (module : bladerf_module) (enable : bool).

(** Lines written to [std::cerr]. *)
Inductive diag : Type :=
| Dropping_samples_not_in_a_burst (noutput_items : Z)
| Got_SOB_while_already_within_a_burst
| Got_EOB_while_not_in_burst
| bladerf_sync_tx_error (status : Z)
| Consecutive_error_limit_hit
| bladerf_sync_config_failed (status : Z)
| bladerf_enable_module_failed (status : Z)
| Invalid_buflen_value
| Clamping_num_transfers (num_transfers : Z).

(** ** The sink object *)

Record bladerf_sink_c : Type := mk_sink {
  _in_burst : bool;
  _use_metadata : bool;
  _consecutive_failures : Z;
  _conv_buf_size : Z;
  _num_buffers : Z;
  _samples_per_buffer : Z;
  _num_transfers : Z;
  _stream_timeout_ms : Z;
  dev_calls : list dev_call;   (* calls made on [_dev], oldest first *)
  cerr : list diag             (* lines on [std::cerr], oldest first *)
}.

Definition set_in_burst (b : bool) (s : bladerf_sink_c) : bladerf_sink_c :=
  mk_sink b (_use_metadata s) (_consecutive_failures s) (_conv_buf_size s)
          (_num_buffers s) (_samples_per_buffer s) (_num_transfers s)
          (_stream_timeout_ms s) (dev_calls s) (cerr s).

Definition set_use_metadata (b : bool) (s : bladerf_sink_c) : bladerf_sink_c :=
  mk_sink (_in_burst s) b (_consecutive_failures s) (_conv_buf_size s)
          (_num_buffers s) (_samples_per_buffer s) (_num_transfers s)
          (_stream_timeout_ms s) (dev_calls s) (cerr s).

Definition set_consecutive_failures (c : Z) (s : bladerf_sink_c)
  : bladerf_sink_c :=
  mk_sink (_in_burst s) (_use_metadata s) c (_conv_buf_size s)
          (_num_buffers s) (_samples_per_buffer s) (_num_transfers s)
          (_stream_timeout_ms s) (dev_calls s) (cerr s).

Definition set_conv_buf_size (n : Z) (s : bladerf_sink_c) : bladerf_sink_c :=
  mk_sink (_in_burst s) (_use_metadata s) (_consecutive_failures s) n
          (_num_buffers s) (_samples_per_buffer s) (_num_transfers s)
          (_stream_timeout_ms s) (dev_calls s) (cerr s).

Definition set_num_buffers (n : Z) (s : bladerf_sink_c) : bladerf_sink_c :=
  mk_sink (_in_burst s) (_use_metadata s) (_consecutive_failures s)
          (_conv_buf_size s) n (_samples_per_buffer s) (_num_transfers s)
          (_stream_timeout_ms s) (dev_calls s) (cerr s).

Definition set_samples_per_buffer (n : Z) (s : bladerf_sink_c)
  : bladerf_sink_c :=
  mk_sink (_in_burst s) (_use_metadata s) (_consecutive_failures s)
          (_conv_buf_size s) (_num_buffers s) n (_num_transfers s)
          (_stream_timeout_ms s) (dev_calls s) (cerr s).

Definition set_num_transfers (n : Z) (s : bladerf_sink_c) : bladerf_sink_c :=
  mk_sink (_in_burst s) (_use_metadata s) (_consecutive_failures s)
          (_conv_buf_size s) (_num_buffers s) (_samples_per_buffer s) n
          (_stream_timeout_ms s) (dev_calls s) (cerr s).

Definition set_stream_timeout_ms (n : Z) (s : bladerf_sink_c)
  : bladerf_sink_c :=
  mk_sink (_in_burst s) (_use_metadata s) (_consecutive_failures s)
          (_conv_buf_size s) (_num_buffers s) (_samples_per_buffer s)
          (_num_transfers s) n (dev_calls s) (cerr s).

Definition push_call (c : dev_call) (s : bladerf_sink_c) : bladerf_sink_c :=
  mk_sink (_in_burst s) (_use_metadata s) (_consecutive_failures s)
          (_conv_buf_size s) (_num_buffers s) (_samples_per_buffer s)
          (_num_transfers s) (_stream_timeout_ms s) (dev_calls s ++ [c])
          (cerr s).

Definition push_cerr (d : diag) (s : bladerf_sink_c) : bladerf_sink_c :=
  mk_sink (_in_burst s) (_use_metadata s) (_consecutive_failures s)
          (_conv_buf_size s) (_num_buffers s) (_samples_per_buffer s)
          (_num_transfers s) (_stream_timeout_ms s) (dev_calls s)
          (cerr s ++ [d]).

(** A stream tag ([gr::tag_t]); only the fields the sink reads. *)
Record tag_t : Type := mk_tag {
  offset : Z;       (* uint64_t, absolute position in the stream *)
  key : string      (* pmt::symbol_to_string(tag.key) *)
}.

(** [static_cast<int>(tag.offset - nitems_read(0))]. *)
Definition rel_offset (tag : tag_t) (nitems_read : Z) : Z :=
  to_int (to_uint64 (offset tag - nitems_read)).

(** What [get_tags_in_window(tags, 0, 0, noutput_items)] guarantees of the
    vector it fills: every tag lies in
    [nitems_read(0), nitems_read(0) + noutput_items). *)
Definition tags_in_window (noutput_items nitems_read : Z)
                          (tags : list tag_t) : Prop :=
  Forall (fun t => nitems_read <= offset t < nitems_read + noutput_items) tags.

(** The locals of [transmit_with_tags] that live across loop iterations. *)
Record locals : Type := mk_locals {
  start_idx : Z;
  end_idx : Z;
  meta_flags : Z;
  status : Z
}.

(** One iteration of the [BOOST_FOREACH] either leaves the function with
    [return] or goes on to the next tag. *)
Inductive flow : Type :=
| Return (status : Z)
| Next (l : locals).

Definition zeros : list Z := repeat 0 8.

Section Sink.

(** The device: the status each call returns, as a function of the calls
    already made on the handle and of the call itself. *)
Variable bladeRF : list dev_call -> dev_call -> Z.

(** [realloc(_conv_buf, size)]: whether it returns non-NULL. *)
Variable realloc_ok : Z -> bool.

(** The threshold [MAX_CONSECUTIVE_FAILURES] is a constant of the class
    declaration in bladerf_common.h; it is a parameter here. *)
Variable MAX_CONSECUTIVE_FAILURES : Z.

Definition call_dev (c : dev_call) : M bladerf_sink_c Z :=
  fun s => (Val (bladeRF (dev_calls s) c), push_call c s).

Definition bladerf_sync_tx (samples : buffer) (num_samples : Z)
                           (meta : option Z) : M bladerf_sink_c Z :=
  timeout <- gets _stream_timeout_ms ;;
  call_dev (sync_tx samples num_samples meta timeout).

Definition say (d : diag) : M bladerf_sink_c unit := modify (push_cerr d).

(** *** bladerf_sink_c::transmit_with_tags, the loop body *)
Definition on_tag (noutput_items nitems_read : Z) (tag : tag_t)
                  (l : locals) : M bladerf_sink_c flow :=
  if (key tag =? "tx_sob")%string then
    in_burst <- gets _in_burst ;;
    if in_burst then
      say Got_SOB_while_already_within_a_burst ;;
      ret (Return BLADERF_ERR_INVAL)
    else
      let start_idx := rel_offset tag nitems_read in
      let flags := Z.lor (meta_flags l)
                         (Z.lor BLADERF_META_FLAG_TX_NOW
                                BLADERF_META_FLAG_TX_BURST_START) in
      modify (set_in_burst true) ;;
      ret (Next (mk_locals start_idx (end_idx l) flags (status l)))
  else if (key tag =? "tx_eob")%string then
    in_burst <- gets _in_burst ;;
    if negb in_burst then
      say Got_EOB_while_not_in_burst ;;
      ret (Return BLADERF_ERR_INVAL)
    else
      let end_idx := rel_offset tag nitems_read in
      if (start_idx l =? INVALID_IDX) || (start_idx l >? end_idx) then
        ret (Return BLADERF_ERR_INVAL)
      else
        let count := end_idx - start_idx l + 1 in
        status <- bladerf_sync_tx (conv_buf_at (2 * start_idx l)) count
                                  (Some (meta_flags l)) ;;
        if negb (status =? 0) then ret (Return status)
        else
          let flags :=
            Z.land (meta_flags l)
                   (Z.lnot (Z.lor BLADERF_META_FLAG_TX_NOW
                                  BLADERF_META_FLAG_TX_BURST_START)) in
          let flags := Z.lor flags BLADERF_META_FLAG_TX_BURST_END in
          status <- bladerf_sync_tx (local_buf zeros) 4 (Some flags) ;;
          (* Reset our state *)
          modify (set_in_burst false) ;;
          if negb (status =? 0) then ret (Return status)
          else ret (Next (mk_locals INVALID_IDX (noutput_items - 1) 0
                                    status))
  else ret (Next l).

(** [BOOST_FOREACH( gr::tag_t tag, tags)]. *)
Fixpoint foreach_tag (noutput_items nitems_read : Z) (tags : list tag_t)
                     (l : locals) : M bladerf_sink_c flow :=
  match tags with
  | [] => ret (Next l)
  | tag :: rest =>
      f <- on_tag noutput_items nitems_read tag l ;;
      match f with
      | Return st => ret (Return st)
      | Next l' => foreach_tag noutput_items nitems_read rest l'
      end
  end.

(** After the loop: "We had a start of burst with no end yet - transmit
    those samples". *)
Definition after_tags (f : flow) : M bladerf_sink_c Z :=
  match f with
  | Return st => ret st
  | Next l =>
      in_burst <- gets _in_burst ;;
      if in_burst then
        let count := end_idx l - start_idx l + 1 in
        bladerf_sync_tx (conv_buf_at (2 * start_idx l)) count
                        (Some (meta_flags l))
      else ret (status l)
  end.

Definition init_locals (noutput_items : Z) : locals :=
  mk_locals 0 (noutput_items - 1) 0 0.

(** *** bladerf_sink_c::transmit_with_tags

    [tags] is the vector filled by
    [get_tags_in_window(tags, 0, 0, noutput_items)] and [nitems_read] the
    value of [nitems_read(0)] during the call.  With no tag and a burst
    open the function returns from inside the first [if]; in every other
    case control reaches the loop and the code after it. *)
Definition transmit_with_tags (noutput_items nitems_read : Z)
                              (tags : list tag_t) : M bladerf_sink_c Z :=
  let l := init_locals noutput_items in
  in_burst <- gets _in_burst ;;
  if (Z.of_nat (List.length tags) =? 0) && in_burst then
    bladerf_sync_tx (conv_buf_at 0) noutput_items (Some (meta_flags l))
  else
    (if Z.of_nat (List.length tags) =? 0
     then say (Dropping_samples_not_in_a_burst noutput_items)
     else ret tt) ;;
    f <- foreach_tag noutput_items nitems_read tags l ;;
    after_tags f.

(** *** bladerf_sink_c::work

    The conversion loop fills [_conv_buf[0 .. 2*noutput_items)] with the
    scaled samples; the contents of the buffer are floating-point data
    cast to [int16_t] and are not modelled, the calls refer to the buffer
    by index.  [_consecutive_failures] is an [unsigned int]. *)
Definition work_transmit (noutput_items nitems_read : Z)
                         (tags : list tag_t) : M bladerf_sink_c Z :=
  size <- gets _conv_buf_size ;;
  (if noutput_items >? size then
     modify (set_conv_buf_size noutput_items) ;;
     if realloc_ok (noutput_items * 2 * 2) then ret tt
     else throw "workFailed to realloc _conv_buf"
   else ret tt) ;;
  use_metadata <- gets _use_metadata ;;
  if use_metadata then transmit_with_tags noutput_items nitems_read tags
  else bladerf_sync_tx (conv_buf_at 0) noutput_items None.

Definition work_account (ret_ noutput_items : Z) : M bladerf_sink_c Z :=
  if negb (ret_ =? 0) then
    say (bladerf_sync_tx_error ret_) ;;
    c <- gets _consecutive_failures ;;
    modify (set_consecutive_failures (to_uint (c + 1))) ;;
    c <- gets _consecutive_failures ;;
    if c >=? MAX_CONSECUTIVE_FAILURES then
      say Consecutive_error_limit_hit ;;
      ret WORK_DONE
    else ret noutput_items
  else
    modify (set_consecutive_failures 0) ;;
    ret noutput_items.

Definition work (noutput_items nitems_read : Z) (tags : list tag_t)
  : M bladerf_sink_c Z :=
  ret_ <- work_transmit noutput_items nitems_read tags ;;
  work_account ret_ noutput_items.

(** *** bladerf_common::start and bladerf_common::stop *)
Definition bladerf_common_start (module : bladerf_module)
  : M bladerf_sink_c bool :=
  use_metadata <- gets _use_metadata ;;
  let format := if use_metadata then BLADERF_FORMAT_SC16_Q11_META
                else BLADERF_FORMAT_SC16_Q11 in
  nb <- gets _num_buffers ;;
  spb <- gets _samples_per_buffer ;;
  nt <- gets _num_transfers ;;
  timeout <- gets _stream_timeout_ms ;;
  r <- call_dev (sync_config module format nb spb nt timeout) ;;
  if negb (r =? 0) then
    say (bladerf_sync_config_failed r) ;; ret false
  else
    r <- call_dev (enable_module module true) ;;
    if negb (r =? 0) then
      say (bladerf_enable_module_failed r) ;; ret false
    else ret true.

Definition bladerf_common_stop (module : bladerf_module)
  : M bladerf_sink_c bool :=
  r <- call_dev (enable_module module false) ;;
  if negb (r =? 0) then
    say (bladerf_enable_module_failed r) ;; ret false
  else ret true.

(** *** bladerf_sink_c::start and bladerf_sink_c::stop *)
Definition start : M bladerf_sink_c bool :=
  modify (set_in_burst false) ;;
  bladerf_common_start BLADERF_MODULE_TX.

Definition stop : M bladerf_sink_c bool :=
  bladerf_common_stop BLADERF_MODULE_TX.

End Sink.

(** ** Buffer configuration (bladerf_common::init)

    [dict_t] is [std::map<std::string, std::string>], the device arguments
    already split into key/value pairs. *)

Definition dict_t : Type := list (string * string).

Fixpoint dict_find (dict : dict_t) (k : string) : option string :=
  match dict with
  | [] => None
  | (k', v) :: rest => if (k' =? k)%string then Some v else dict_find rest k
  end.

(** [dict.count(k)], 0 or 1 for a map. *)
Definition dict_count (dict : dict_t) (k : string) : Z :=
  match dict_find dict k with Some _ => 1 | None => 0 end.

(** [dict[k]]; the empty string for a key that is absent. *)
Definition dict_get (dict : dict_t) (k : string) : string :=
  match dict_find dict k with Some v => v | None => EmptyString end.

Definition size_t_range (z : Z) : Prop := 0 <= z < 2 ^ 64.

Section Init.

(** [boost::lexical_cast<size_t>] and [boost::lexical_cast<unsigned int>]:
    [None] when the cast throws [bad_lexical_cast]. *)
Variable lexical_cast_size_t : string -> option Z.
Variable lexical_cast_unsigned_int : string -> option Z.

Definition lexical_cast (cast : string -> option Z) (v : string)
  : M bladerf_sink_c Z :=
  match cast v with
  | Some z => ret z
  | None => throw "bad lexical cast: source type value could not be interpreted as target"
  end.

(** bladerf_common::init, from "Initialize buffer and sample
    configuration" up to the allocation of [_conv_buf]. *)
Definition init_stream_config (dict : dict_t) : M bladerf_sink_c unit :=
  modify (set_num_buffers 0) ;;
  (if negb (dict_count dict "buffers" =? 0) then
     v <- lexical_cast lexical_cast_size_t (dict_get dict "buffers") ;;
     modify (set_num_buffers v)
   else ret tt) ;;
  modify (set_samples_per_buffer 0) ;;
  (if negb (dict_count dict "buflen" =? 0) then
     v <- lexical_cast lexical_cast_size_t (dict_get dict "buflen") ;;
     modify (set_samples_per_buffer v)
   else ret tt) ;;
  modify (set_num_transfers 0) ;;
  (if negb (dict_count dict "transfers" =? 0) then
     v <- lexical_cast lexical_cast_size_t (dict_get dict "transfers") ;;
     modify (set_num_transfers v)
   else ret tt) ;;
  modify (set_stream_timeout_ms 3000) ;;
  (if negb (dict_count dict "stream_timeout_ms" =? 0) then
     v <- lexical_cast lexical_cast_unsigned_int
                       (dict_get dict "stream_timeout_ms") ;;
     modify (set_stream_timeout_ms v)
   else ret tt) ;;
  modify (set_use_metadata (negb (dict_count dict "enable_metadata" =? 0))) ;;
  (* Require value to be >= 2 so we can ensure we have twice as many
     buffers as transfers *)
  nb <- gets _num_buffers ;;
  (if nb <=? 1 then modify (set_num_buffers NUM_BUFFERS) else ret tt) ;;
  spb <- gets _samples_per_buffer ;;
  (if 0 =? spb then modify (set_samples_per_buffer NUM_SAMPLES_PER_BUFFER)
   else
     if (spb <? 1024) || negb (spb mod 1024 =? 0) then
       (* 0 likely implies the user did not specify this, so don't warn *)
       (if negb (spb =? 0) then say Invalid_buflen_value else ret tt) ;;
       modify (set_samples_per_buffer NUM_SAMPLES_PER_BUFFER)
     else ret tt) ;;
  (* If the user hasn't specified the desired number of transfers, set it
     to min(32, num_buffers / 2) *)
  nt <- gets _num_transfers ;;
  nb <- gets _num_buffers ;;
  if nt =? 0 then
    modify (set_num_transfers (nb / 2)) ;;
    nt <- gets _num_transfers ;;
    if nt >? 32 then modify (set_num_transfers 32) else ret tt
  else if nt >=? nb then
    modify (set_num_transfers (nb - 1)) ;;
    say (Clamping_num_transfers (nb - 1))
  else ret tt.

End Init.

(** ** The device registry (bladerf_common::_devs)

    A [struct bladerf *] is a handle number given out by libbladeRF; [open]
    wraps each new handle in exactly one [boost::shared_ptr], so the number
    also names the control block, and a [bladerf_sptr] or a [weak_ptr] is
    the handle it points to ([None] for the empty pointer). *)

Definition raw_dev : Type := nat.
Definition bladerf_sptr : Type := option raw_dev.

Inductive reg_event : Type :=
| mutex_lock
| mutex_unlock
| native_open (dev : raw_dev)      (* bladerf_open_with_devinfo succeeded *)
| native_close (dev : raw_dev).    (* bladerf_close *)

Section Registry.

(** [struct bladerf_devinfo]. *)
Variable devinfo : Type.

(** libbladeRF, [bladerf_get_devinfo_from_str]: [None] when [rv < 0]. *)
Variable bladerf_get_devinfo_from_str : string -> option devinfo.

(** libbladeRF, [bladerf_devinfo_matches]. *)
Variable bladerf_devinfo_matches : devinfo -> devinfo -> bool.

(** libbladeRF, the device [bladerf_open_with_devinfo] finds for a
    requested [devinfo] while the given connections are open: the
    descriptor of the device it opens, [None] when [rv < 0]. *)
Variable probe : devinfo -> list (raw_dev * devinfo) -> option devinfo.

Record registry : Type := mk_registry {
  _devs : list raw_dev;                 (* std::list<weak_ptr<bladerf>> *)
  use_count : raw_dev -> nat;           (* strong count per control block *)
  opened : list (raw_dev * devinfo);    (* libbladeRF: open connections *)
  next_handle : raw_dev;                (* libbladeRF: next handle number *)
  _devs_mutex : bool;                   (* true while locked *)
  trace : list reg_event                (* oldest first *)
}.

Definition set_devs (l : list raw_dev) (r : registry) : registry :=
  mk_registry l (use_count r) (opened r) (next_handle r) (_devs_mutex r)
              (trace r).

Definition set_use_count (dev : raw_dev) (c : nat) (r : registry)
  : registry :=
  mk_registry (_devs r)
              (fun d => if Nat.eqb d dev then c else use_count r d)
              (opened r) (next_handle r) (_devs_mutex r) (trace r).

Definition set_opened (l : list (raw_dev * devinfo)) (r : registry)
  : registry :=
  mk_registry (_devs r) (use_count r) l (next_handle r) (_devs_mutex r)
              (trace r).

Definition set_next_handle (n : raw_dev) (r : registry) : registry :=
  mk_registry (_devs r) (use_count r) (opened r) n (_devs_mutex r)
              (trace r).

Definition set_mutex (b : bool) (r : registry) : registry :=
  mk_registry (_devs r) (use_count r) (opened r) (next_handle r) b
              (trace r).

Definition push_event (e : reg_event) (r : registry) : registry :=
  mk_registry (_devs r) (use_count r) (opened r) (next_handle r)
              (_devs_mutex r) (trace r ++ [e]).

Fixpoint find_conn (l : list (raw_dev * devinfo)) (dev : raw_dev)
  : option devinfo :=
  match l with
  | [] => None
  | (d, i) :: rest => if Nat.eqb d dev then Some i else find_conn rest dev
  end.

(** [weak_ptr::expired()]. *)
Definition expired (r : registry) (dev : raw_dev) : bool :=
  Nat.eqb (use_count r dev) 0.

(** [boost::unique_lock<boost::mutex> lock(_devs_mutex)] around a body:
    the lock is taken first and given back when the scope is left, by a
    return or by an exception.  [boost::mutex] is not recursive: a second
    acquisition by the thread that holds it never returns, which is the
    [Exn] outcome here. *)
Definition with_lock {A} (body : M registry A) : M registry A :=
  fun r =>
    if _devs_mutex r then (Exn "deadlock on _devs_mutex", r)
    else
      let r := push_event mutex_lock (set_mutex true r) in
      let (a, r) := body r in
      (a, push_event mutex_unlock (set_mutex false r)).

(** libbladeRF, [bladerf_get_devinfo]: the descriptor of an open
    connection. *)
Definition bladerf_get_devinfo (dev : raw_dev) : M registry (option devinfo) :=
  gets (fun r => find_conn (opened r) dev).

(** libbladeRF, [bladerf_open_with_devinfo]. *)
Definition bladerf_open_with_devinfo (info : devinfo)
  : M registry (option raw_dev) :=
  fun r =>
    match probe info (opened r) with
    | None => (Val None, r)
    | Some found =>
        let dev := next_handle r in
        (Val (Some dev),
         push_event (native_open dev)
           (set_next_handle (S dev)
              (set_opened (opened r ++ [(dev, found)]) r)))
    end.

(** libbladeRF, [bladerf_close]. *)
Definition bladerf_close (dev : raw_dev) : M registry unit :=
  modify (fun r =>
    push_event (native_close dev)
      (set_opened (filter (fun c => negb (Nat.eqb (fst c) dev)) (opened r))
                  r)).

(** *** bladerf_common::get_cached_device

    [bladerf_sptr(dev)] on an expired [weak_ptr] throws
    [boost::bad_weak_ptr].  The temporary it builds for the
    [bladerf_get_devinfo] call is gone at the end of that statement; the
    one built for [return] is the caller's new reference. *)
Fixpoint get_cached_device_from (devs : list raw_dev) (info : devinfo)
  : M registry bladerf_sptr :=
  match devs with
  | [] => ret None
  | dev :: rest =>
      is_expired <- gets (fun r => expired r dev) ;;
      if is_expired then throw "tr1::bad_weak_ptr"
      else
        other <- bladerf_get_devinfo dev ;;
        match other with
        | None => throw "get_cached_device Failed to get devinfo for cached device."
        | Some other_devinfo =>
            if bladerf_devinfo_matches info other_devinfo then
              c <- gets (fun r => use_count r dev) ;;
              modify (set_use_count dev (S c)) ;;
              ret (Some dev)
            else get_cached_device_from rest info
        end
  end.

Definition get_cached_device (info : devinfo) : M registry bladerf_sptr :=
  devs <- gets _devs ;;
  get_cached_device_from devs info.

(** *** bladerf_common::close, the deleter of every [bladerf_sptr] *)
Definition close (dev : raw_dev) : M registry unit :=
  with_lock (
    (* Prune expired entries from device cache *)
    modify (fun r => set_devs (filter (fun d => negb (expired r d)) (_devs r)) r) ;;
    bladerf_close dev).

(** *** bladerf_common::open *)
Definition open (device_name : string) : M registry bladerf_sptr :=
  with_lock (
    match bladerf_get_devinfo_from_str device_name with
    | None => throw "open Failed to get devinfo for device"
    | Some info =>
        cached_dev <- get_cached_device info ;;
        match cached_dev with
        | Some dev => ret (Some dev)
        | None =>
            raw <- bladerf_open_with_devinfo info ;;
            match raw with
            | None => throw "open Failed to open device"
            | Some dev =>
                modify (set_use_count dev 1) ;;
                modify (fun r => set_devs (_devs r ++ [dev]) r) ;;
                ret (Some dev)
            end
        end
    end).

(** [boost::shared_ptr<struct bladerf>::~shared_ptr] (also [reset]): the
    strong count drops by one and the deleter runs when it reaches
    zero. *)
Definition sptr_release (p : bladerf_sptr) : M registry unit :=
  match p with
  | None => ret tt
  | Some dev =>
      c <- gets (fun r => use_count r dev) ;;
      match c with
      | O => ret tt
      | S c' =>
          modify (set_use_count dev c') ;;
          if Nat.eqb c' 0 then close dev else ret tt
      end
  end.

Definition empty_registry : registry :=
  mk_registry [] (fun _ => O) [] O false [].

(** The test [get_cached_device] makes on an entry: the descriptor of
    its connection matches the requested one. *)
Definition cached_match (info : devinfo) (r : registry) (dev : raw_dev)
  : bool :=
  match find_conn (opened r) dev with
  | Some other_devinfo => bladerf_devinfo_matches info other_devinfo
  | None => false
  end.

(** The registry between two operations: the mutex is free, no entry of
    [_devs] is expired, every entry is an open connection, and the handle
    numbers not yet given out are unused. *)
Definition registry_ok (r : registry) : Prop :=
  _devs_mutex r = false /\
  (forall d, In d (_devs r) ->
     (0 < use_count r d)%nat /\ exists i, find_conn (opened r) d = Some i) /\
  (forall d, (next_handle r <= d)%nat ->
     use_count r d = O /\ find_conn (opened r) d = None).

End Registry.

Arguments _devs {devinfo} r.
Arguments use_count {devinfo} r dev.
Arguments opened {devinfo} r.
Arguments next_handle {devinfo} r.
Arguments _devs_mutex {devinfo} r.
Arguments trace {devinfo} r.
Arguments set_use_count {devinfo} dev c r.
Arguments find_conn {devinfo} l dev.
Arguments expired {devinfo} r dev.
Arguments get_cached_device_from {devinfo} bladerf_devinfo_matches devs info.
Arguments get_cached_device {devinfo} bladerf_devinfo_matches info.
Arguments close {devinfo} dev.
Arguments open {devinfo} bladerf_get_devinfo_from_str bladerf_devinfo_matches
  probe device_name.
Arguments sptr_release {devinfo} p.
Arguments empty_registry {devinfo}.
Arguments registry_ok {devinfo} r.
Arguments cached_match {devinfo} bladerf_devinfo_matches info r dev.

(** ** Runs of the scheduler and vocabulary of the statements *)

Definition is_sob (t : tag_t) : bool := (key t =? "tx_sob")%string.
Definition is_eob (t : tag_t) : bool := (key t =? "tx_eob")%string.

(** A tag that is neither a start nor an end of burst. *)
Definition is_plain (t : tag_t) : bool := negb (is_sob t) && negb (is_eob t).

Definition START_FLAGS : Z :=
  Z.lor BLADERF_META_FLAG_TX_NOW BLADERF_META_FLAG_TX_BURST_START.

(** One call of the scheduler: [noutput_items], [nitems_read(0)] and the
    tags in the window. *)
Record block : Type := mk_block {
  blk_items : Z;
  blk_nread : Z;
  blk_tags : list tag_t
}.

Section Runs.

Variable bladeRF : list dev_call -> dev_call -> Z.
Variable realloc_ok : Z -> bool.
Variable MAX_CONSECUTIVE_FAILURES : Z.

(** Successive calls of [transmit_with_tags], one per block. *)
Fixpoint transmit_blocks (blocks : list block) (s : bladerf_sink_c)
  : list Z * bladerf_sink_c :=
  match blocks with
  | [] => ([], s)
  | b :: rest =>
      match transmit_with_tags bladeRF (blk_items b) (blk_nread b)
                               (blk_tags b) s with
      | (Val st, s') =>
          let (sts, s'') := transmit_blocks rest s' in (st :: sts, s'')
      | (Exn _, s') => ([], s')
      end
  end.

(** Successive calls of [work]; for each call that returned, the item
    count it was given, the transmit status [ret] it saw and the value it
    returned.  The run ends at the first call that throws. *)
Fixpoint run_work (blocks : list block) (s : bladerf_sink_c)
  : list (Z * Z * Z) * bladerf_sink_c :=
  match blocks with
  | [] => ([], s)
  | b :: rest =>
      match work_transmit bladeRF realloc_ok (blk_items b) (blk_nread b)
                          (blk_tags b) s with
      | (Exn _, s1) => ([], s1)
      | (Val r, s1) =>
          match work_account MAX_CONSECUTIVE_FAILURES r (blk_items b) s1 with
          | (Exn _, s2) => ([], s2)
          | (Val v, s2) =>
              let (tr, s3) := run_work rest s2 in
              ((blk_items b, r, v) :: tr, s3)
          end
      end
  end.

End Runs.

Definition statuses (tr : list (Z * Z * Z)) : list Z :=
  map (fun e => snd (fst e)) tr.

(** The number of nonzero statuses at the head of a list, and at the end of
    a list: the failures since the last success. *)
Fixpoint leading_failures (rets : list Z) : Z :=
  match rets with
  | [] => 0
  | r :: rest => if r =? 0 then 0 else 1 + leading_failures rest
  end.

Definition trailing_failures (rets : list Z) : Z :=
  leading_failures (rev rets).

(** The calls of a burst as the testable property words them: one data call
    from the conversion buffer carrying the burst-start flag, then one
    trailer of four zero samples without it, and nothing else. *)
Definition has_start_flag (c : dev_call) : bool :=
  match c with
  | sync_tx _ _ (Some flags) _ => Z.testbit flags 0
  | _ => false
  end.

Definition is_data_call (c : dev_call) : bool :=
  match c with
  | sync_tx (conv_buf_at _) _ _ _ => true
  | _ => false
  end.

Definition is_trailer_call (c : dev_call) : bool :=
  match c with
  | sync_tx (local_buf contents) 4 _ _ => forallb (Z.eqb 0) contents
  | _ => false
  end.

Definition one_data_then_trailer (calls : list dev_call) : bool :=
  match calls with
  | [d; t] => is_data_call d && has_start_flag d
              && is_trailer_call t && negb (has_start_flag t)
  | _ => false
  end.

(** The buffer length rule as the specification words it: a supplied value
    that is not a positive multiple of 1024 is answered with a warning. *)
Definition positive_multiple_of_1024 (v : Z) : bool :=
  (0 <? v) && (v mod 1024 =? 0).

Definition warned_about_buflen (s : bladerf_sink_c) : bool :=
  existsb (fun d => match d with Invalid_buflen_value => true | _ => false end)
          (cerr s).

Definition warned_about_clamping (s : bladerf_sink_c) : bool :=
  existsb (fun d => match d with Clamping_num_transfers _ => true | _ => false end)
          (cerr s).

(** A device argument: [Some v] when the key is present and the cast gives
    [v]. *)
Definition arg (cast : string -> option Z) (dict : dict_t) (k : string)
  : option Z :=
  match dict_find dict k with
  | Some v => cast v
  | None => None
  end.

Definition fresh_sink : bladerf_sink_c :=
  mk_sink false false 0 4096 0 0 0 0 [] [].

(** The call that sends the samples [first .. last] of the conversion
    buffer, and the trailer call that follows the data call of an end of
    burst. *)
Definition data_call (s : bladerf_sink_c) (first last flags : Z) : dev_call :=
  sync_tx (conv_buf_at (2 * first)) (last - first + 1) (Some flags)
          (_stream_timeout_ms s).

Definition trailer_call (s : bladerf_sink_c) (flags : Z) : dev_call :=
  sync_tx (local_buf zeros) 4
          (Some (Z.lor (Z.land flags (Z.lnot START_FLAGS))
                       BLADERF_META_FLAG_TX_BURST_END))
          (_stream_timeout_ms s).

(** What holds of the locals after the loop has walked the tags [pre] of a
    call that began in state [s0], when it is about to look at the next
    tag. *)
Definition loop_inv (noutput_items : Z) (s0 : bladerf_sink_c)
                    (pre : list tag_t) (l : locals) (s : bladerf_sink_c)
  : Prop :=
  status l = 0 /\ end_idx l = noutput_items - 1 /\
  _stream_timeout_ms s = _stream_timeout_ms s0 /\
  if _in_burst s then
    if existsb is_sob pre
    then meta_flags l = START_FLAGS /\ 0 <= start_idx l < noutput_items
    else meta_flags l = 0 /\ start_idx l = 0 /\ _in_burst s0 = true
  else meta_flags l = 0.

(** ** Example inputs *)

(** A device on which every call succeeds, and one on which every call
    fails with [BLADERF_ERR_TIMEOUT] (-6). *)
Definition always_ok : list dev_call -> dev_call -> Z := fun _ _ => 0.
Definition always_timeout : list dev_call -> dev_call -> Z := fun _ _ => -6.

(** A sink configured by [init] with [enable_metadata] and no other
    argument, before its first [work]. *)
Definition metadata_sink : bladerf_sink_c :=
  mk_sink false true 0 4096 32 4096 16 3000 [] [].

Definition sob_at (off : Z) : tag_t := mk_tag off "tx_sob".
Definition eob_at (off : Z) : tag_t := mk_tag off "tx_eob".

(** A burst that starts at sample 10 of one block of 100 samples and ends
    at sample 60 of the next. *)
Definition burst_over_two_blocks : list block :=
  [mk_block 100 0 [sob_at 10]; mk_block 100 100 [eob_at 160]].

(** An instance of the casts for the examples: plain decimal digits, below
    2^64. *)
Fixpoint parse_digits (str : string) (acc : Z) : option Z :=
  match str with
  | EmptyString => Some acc
  | String c rest =>
      let d := Z.of_nat (Ascii.nat_of_ascii c) - 48 in
      if (0 <=? d) && (d <=? 9) then parse_digits rest (10 * acc + d)
      else None
  end.

Definition decimal_cast (str : string) : option Z :=
  match str with
  | EmptyString => None
  | _ => match parse_digits str 0 with
         | Some v => if v <? 2 ^ 64 then Some v else None
         | None => None
         end
  end.

(** The buffer length rule as the specification words it: 4096 when unset,
    the supplied value when it is a positive multiple of 1024, and otherwise
    4096 together with a warning. *)
Definition buflen_rule_as_stated (buflen : option Z) (s' : bladerf_sink_c)
  : Prop :=
  match buflen with
  | None => _samples_per_buffer s' = 4096
  | Some v =>
      if positive_multiple_of_1024 v then _samples_per_buffer s' = v
      else _samples_per_buffer s' = 4096 /\ warned_about_buflen s' = true
  end.

Definition example_open : string -> M (registry string) bladerf_sptr :=
  open (fun k => Some k) String.eqb (fun p _ => Some p).

Definition three_blocks : list block :=
  [mk_block 10 0 []; mk_block 10 10 []; mk_block 10 20 []].

Definition example_dict : dict_t :=
  [("buflen", "1500"); ("buffers", "4"); ("transfers", "8")]%string.

Definition zero_buflen_dict : dict_t := [("buflen", "0")%string].

(** The members [init] derives from [example_dict], and the sink after
    three failing calls of [work] on [three_blocks]. *)
Definition example_config : bladerf_sink_c :=
  mk_sink false false 0 4096 4 4096 3 3000 []
          [Invalid_buflen_value; Clamping_num_transfers 3].

Definition after_three_failures : bladerf_sink_c :=
  mk_sink false false 3 4096 0 0 0 0
    [sync_tx (conv_buf_at 0) 10 None 0; sync_tx (conv_buf_at 0) 10 None 0;
     sync_tx (conv_buf_at 0) 10 None 0]
    [bladerf_sync_tx_error (-6); bladerf_sync_tx_error (-6);
     bladerf_sync_tx_error (-6); Consecutive_error_limit_hit].

(** ** Vocabulary of the further statements *)

(** The burst state as the tags alone dictate it: a start of burst opens,
    an end of burst closes, any other tag leaves the state. *)
Definition burst_state_after (tags : list tag_t) (in_burst : bool) : bool :=
  fold_left (fun b t => if is_sob t then true
                        else if is_eob t then false else b)
            tags in_burst.

(** The members a transmit call has no business with. *)
Definition same_members (s s' : bladerf_sink_c) : Prop :=
  _use_metadata s' = _use_metadata s /\
  _consecutive_failures s' = _consecutive_failures s /\
  _conv_buf_size s' = _conv_buf_size s /\
  _num_buffers s' = _num_buffers s /\
  _samples_per_buffer s' = _samples_per_buffer s /\
  _num_transfers s' = _num_transfers s /\
  _stream_timeout_ms s' = _stream_timeout_ms s.

(** In the calls [new] made after the calls [hist], every trailer comes
    directly after a data call that returned 0. *)
Definition trailers_follow_data (bladeRF : list dev_call -> dev_call -> Z)
                                (hist new : list dev_call) : Prop :=
  forall pre c post,
    new = pre ++ c :: post -> is_trailer_call c = true ->
    exists pre' d,
      pre = pre' ++ [d] /\ is_data_call d = true /\
      bladeRF (hist ++ pre') d = 0.

(** The status [st] is what the device answered to the last of the calls
    [new] made after the calls [hist]. *)
Definition last_call_status (bladeRF : list dev_call -> dev_call -> Z)
                            (hist new : list dev_call) (st : Z) : Prop :=
  exists pre c, new = pre ++ [c] /\ bladeRF (hist ++ pre) c = st.

(** A device argument that is present and that the cast rejects. *)
Definition cast_fails (cast : string -> option Z) (dict : dict_t) (k : string)
  : bool :=
  match dict_find dict k with
  | Some v => match cast v with Some _ => false | None => true end
  | None => false
  end.

(** The state an [open] that throws leaves behind: the lock was taken and
    given back, nothing else happened. *)
Definition locked_and_unlocked {devinfo : Type} (r r1 : registry devinfo)
  : Prop :=
  _devs r1 = _devs r /\
  (forall x, use_count r1 x = use_count r x) /\
  opened r1 = opened r /\
  next_handle r1 = next_handle r /\
  _devs_mutex r1 = false /\
  trace r1 = trace r ++ [mutex_lock; mutex_unlock].

(** ** The libbladeRF version test (bladerf_common.cc)

    [struct bladerf_version]: the fields are [uint16_t]; the [describe]
    string is not read by the test. *)
Record bladerf_version : Type := mk_version {
  major : Z;
  minor : Z;
  patch : Z
}.

(** [static bool version_greater_or_equal(version, major, minor, patch)]. *)
Definition version_greater_or_equal (version : bladerf_version)
                                    (major' minor' patch' : Z) : bool :=
  if major version >? major' then true
  else if (major version =? major') && (minor version >? minor') then true
  else if (major version =? major') && (minor version =? minor')
          && (patch version >=? patch') then true
  else false.

(** A version as one number, each field in 16 bits. *)
Definition version_number (major' minor' patch' : Z) : Z :=
  (major' * 2 ^ 16 + minor') * 2 ^ 16 + patch'.

(** ** The device identifier string (bladerf_common::init) *)

(** libbladeRF.h: [#define BLADERF_SERIAL_LENGTH 33]. *)
Definition BLADERF_SERIAL_LENGTH : Z := 33.

(** An unsigned number printed in decimal ([%d], [operator<<]). *)
Definition decimal (n : Z) : string :=
  NilZero.string_of_uint (N.to_uint (Z.to_N n)).

(** [std::string::length()]. *)
Definition strlen (s : string) : Z := Z.of_nat (String.length s).

Section DeviceName.

(** [boost::lexical_cast<unsigned int>]: [None] when it throws. *)
Variable lexical_cast_unsigned_int : string -> option Z.

(** What [bladerf_version(&ver)] reports for the library in use. *)
Variable library_version : bladerf_version.

(** bladerf_common::init, from [if (dict.count("bladerf"))] up to the call
    of [open]: the value of [device_name], or the exception thrown. *)
Definition init_device_name (dict : dict_t) : res string :=
  if negb (dict_count dict "bladerf" =? 0) then
    let value := dict_get dict "bladerf" in
    if strlen value >? 0 then
      if strlen value <=? 2 then
        (* If the value is two digits or less, we'll assume the user is
           providing an instance number *)
        match lexical_cast_unsigned_int value with
        | Some device_number => Val ("*:instance=" ++ decimal device_number)%string
        | None => Exn "Failed to use the value as device number"
        end
      else
        (* Otherwise, we'll assume it's a serial number. *)
        if version_greater_or_equal library_version 1 4 1
           || (strlen value =? BLADERF_SERIAL_LENGTH - 1)
        then Val ("*:serial=" ++ value)%string
        else Exn "A full serial number must be supplied with this libbladeRF"
    else Val EmptyString
  else Val EmptyString.

End DeviceName.

(** ** Control calls on the device handle

    The calls the clock-source and correction functions make, with the
    device as a function from the calls made so far and the call to its
    status and the value it stores through the output pointer. *)

Inductive bladerf_correction : Type :=
| BLADERF_CORR_LMS_DCOFF_I
| BLADERF_CORR_LMS_DCOFF_Q
| BLADERF_CORR_FPGA_PHASE
| BLADERF_CORR_FPGA_GAIN.

Inductive ctl_call : Type :=
| set_vctcxo_tamer_mode (mode : Z)
| get_vctcxo_tamer_mode
| set_correction (module : bladerf_module) (corr : bladerf_correction)
                 (value : Z).

(** libbladeRF.h, [bladerf_vctcxo_tamer_mode]. *)
Definition BLADERF_VCTCXO_TAMER_INVALID : Z := -1.
Definition BLADERF_VCTCXO_TAMER_DISABLED : Z := 0.
Definition BLADERF_VCTCXO_TAMER_1_PPS : Z := 1.
Definition BLADERF_VCTCXO_TAMER_10_MHZ : Z := 2.

(** [std::find(v.begin(), v.end(), x) - v.begin()]. *)
Fixpoint find_index (x : string) (v : list string) : nat :=
  match v with
  | [] => O
  | y :: rest => if (y =? x)%string then O else S (find_index x rest)
  end.

(** [v.at(i)] for an index converted to [size_t]: a negative [i] becomes a
    huge index, so it is out of range like one past the end. *)
Definition vector_at {S : Type} (v : list string) (i : Z) : M S string :=
  if (0 <=? i) && (i <? Z.of_nat (List.length v))
  then ret (nth (Z.to_nat i) v EmptyString)
  else throw "vector::_M_range_check".

(** bladerf_common::get_clock_sources. *)
Definition get_clock_sources : list string :=
  ["internal"; "external_1pps"; "external"]%string.

Section Control.

Variable libbladeRF : list ctl_call -> ctl_call -> Z * Z.

Definition call_ctl (c : ctl_call) : M (list ctl_call) (Z * Z) :=
  fun calls => (Val (libbladeRF calls c), calls ++ [c]).

(** bladerf_common::set_clock_source (bladerf_sink_c::set_clock_source
    forwards to it). *)
Definition set_clock_source (source : string) : M (list ctl_call) unit :=
  let tamer_mode := BLADERF_VCTCXO_TAMER_DISABLED in
  let clock_sources := get_clock_sources in
  let index := Z.of_nat (find_index source clock_sources) in
  let tamer_mode :=
    if index <? Z.of_nat (List.length clock_sources) then index
    else tamer_mode in
  r <- call_ctl (set_vctcxo_tamer_mode tamer_mode) ;;
  if negb (fst r =? 0) then throw "Failed to set VCTCXO tamer mode"
  else ret tt.

(** bladerf_common::get_clock_source. *)
Definition get_clock_source : M (list ctl_call) string :=
  r <- call_ctl get_vctcxo_tamer_mode ;;
  if negb (fst r =? 0) then throw "Failed to get VCTCXO tamer mode"
  else
    let tamer_mode := snd r in
    let clock_sources := get_clock_sources in
    vector_at clock_sources tamer_mode.

(** [std::complex<double>] and the four casts
    [(int16_t)(offset.real() * DCOFF_SCALE)],
    [(int16_t)(offset.imag() * DCOFF_SCALE)],
    [(int16_t)(balance.real() * GAIN_SCALE)] and
    [(int16_t)(balance.imag() * PHASE_SCALE)]; the floating-point
    arithmetic is not modelled. *)
Variable complex : Type.
Variable dcoff_i dcoff_q gain_of phase_of : complex -> Z.

(** bladerf_common::set_dc_offset. *)
Definition bladerf_common_set_dc_offset (module : bladerf_module)
                                        (offset : complex)
  : M (list ctl_call) Z :=
  let val_i := dcoff_i offset in
  let val_q := dcoff_q offset in
  r1 <- call_ctl (set_correction module BLADERF_CORR_LMS_DCOFF_I val_i) ;;
  r2 <- call_ctl (set_correction module BLADERF_CORR_LMS_DCOFF_Q val_q) ;;
  ret (Z.lor (fst r1) (fst r2)).

(** bladerf_common::set_iq_balance. *)
Definition bladerf_common_set_iq_balance (module : bladerf_module)
                                         (balance : complex)
  : M (list ctl_call) Z :=
  let val_gain := gain_of balance in
  let val_phase := phase_of balance in
  r1 <- call_ctl (set_correction module BLADERF_CORR_FPGA_GAIN val_gain) ;;
  r2 <- call_ctl (set_correction module BLADERF_CORR_FPGA_PHASE val_phase) ;;
  ret (Z.lor (fst r1) (fst r2)).

(** bladerf_sink_c::set_dc_offset and bladerf_sink_c::set_iq_balance. *)
Definition set_dc_offset (offset : complex) : M (list ctl_call) unit :=
  r <- bladerf_common_set_dc_offset BLADERF_MODULE_TX offset ;;
  if negb (r =? 0) then throw "set_dc_offset could not set dc offset"
  else ret tt.

Definition set_iq_balance (balance : complex) : M (list ctl_call) unit :=
  r <- bladerf_common_set_iq_balance BLADERF_MODULE_TX balance ;;
  if negb (r =? 0) then throw "set_iq_balance could not set iq balance"
  else ret tt.

End Control.

(** ** The device list (bladerf_common::devices) *)

(** The fields of [struct bladerf_devinfo] that [devices] reads. *)
Record devinfo_entry : Type := mk_entry {
  entry_instance : Z;       (* unsigned int instance *)
  entry_serial : string     (* char serial[BLADERF_SERIAL_LENGTH] *)
}.

(** [s.replace(pos, len, str)] for [pos <= s.length()]; [len] is cut to
    the characters there are. *)
Definition string_replace (pos len : nat) (str s : string) : string :=
  let len := Nat.min len (String.length s - pos) in
  (substring 0 pos s ++ str
   ++ substring (pos + len) (String.length s - (pos + len)) s)%string.

(** [if ( serial.length() == 32 ) serial.replace( 4, 24, "..." )], in
    [devices] and in [init]. *)
Definition shorten_serial (serial : string) : string :=
  if Nat.eqb (String.length serial) 32 then string_replace 4 24 "..." serial
  else serial.

Definition device_entry (d : devinfo_entry) : string :=
  let serial := shorten_serial (entry_serial d) in
  ("bladerf=" ++ decimal (entry_instance d) ++ "," ++ "label='nuand bladeRF"
   ++ (if negb (Nat.eqb (String.length serial) 0) then " SN " ++ serial
       else "")
   ++ "'")%string.

(** bladerf_common::devices; [n_devices] and [device_list] are what
    [bladerf_get_device_list] returns and stores. *)
Definition devices (n_devices : Z) (device_list : list devinfo_entry)
  : list string :=
  if n_devices >? 0
  then map device_entry (firstn (Z.to_nat n_devices) device_list)
  else [].

(** A tag the engine has no meaning for. *)
Definition other_tag_at (off : Z) : tag_t := mk_tag off "rx_time".

(** A registry in which two blocks share the connection to the first
    device. *)
Definition shared_registry : registry string :=
  mk_registry string [0%nat] (fun d => if Nat.eqb d 0 then 2%nat else O)
              [(0%nat, "*:instance=0"%string)] 1%nat false
              [mutex_lock; native_open 0%nat; mutex_unlock;
               mutex_lock; mutex_unlock].

(** libbladeRF where no device identifier string can be parsed. *)
Definition failing_open : string -> M (registry string) bladerf_sptr :=
  open (fun _ => None) String.eqb (fun p _ => Some p).

(** A device that keeps the tamer mode written last and accepts every
    call. *)
Definition last_mode (calls : list ctl_call) : Z :=
  fold_left (fun m c => match c with
                        | set_vctcxo_tamer_mode m' => m'
                        | _ => m
                        end) calls BLADERF_VCTCXO_TAMER_DISABLED.

Definition tamer_device (calls : list ctl_call) (c : ctl_call) : Z * Z :=
  match c with
  | get_vctcxo_tamer_mode => (0, last_mode calls)
  | _ => (0, 0)
  end.

(** A library older than 1.4.1, and two attached devices, the second
    without a serial number. *)
Definition old_library : bladerf_version := mk_version 1 3 0.

Definition two_devices : list devinfo_entry :=
  [mk_entry 0 "0123456789abcdef0123456789abcdef";
   mk_entry 1 ""].

(** * Facts *)

Lemma rel_offset_in_window (noutput_items nitems_read : Z) (t : tag_t) :
  noutput_items <= INT_MAX ->
  nitems_read <= offset t < nitems_read + noutput_items ->
  rel_offset t nitems_read = offset t - nitems_read.
Proof.
  unfold INT_MAX, rel_offset, to_int, to_uint64. intros Hn Hw.
  rewrite (Z.mod_small (offset t - nitems_read)) by lia.
  rewrite Z.mod_small by lia. lia.
Qed.

Lemma leading_failures_nonneg (rets : list Z) : 0 <= leading_failures rets.
Proof.
  induction rets as [|r rest IH]; cbn [leading_failures]; [lia|].
  destruct (r =? 0); lia.
Qed.

Lemma leading_failures_le_length (rets : list Z) :
  leading_failures rets <= Z.of_nat (List.length rets).
Proof.
  induction rets as [|r rest IH]; cbn [List.length leading_failures].
  - lia.
  - rewrite Nat2Z.inj_succ. destruct (r =? 0); lia.
Qed.

Lemma trailing_failures_snoc (rets : list Z) (r : Z) :
  trailing_failures (rets ++ [r]) =
  if r =? 0 then 0 else trailing_failures rets + 1.
Proof.
  unfold trailing_failures. rewrite rev_app_distr.
  cbn [rev app leading_failures]. destruct (r =? 0); lia.
Qed.

Lemma trailing_failures_bounds (rets : list Z) :
  0 <= trailing_failures rets <= Z.of_nat (List.length rets).
Proof.
  unfold trailing_failures. split.
  - apply leading_failures_nonneg.
  - rewrite <- length_rev. apply leading_failures_le_length.
Qed.

(** ** The burst engine, one tag at a time *)

Section EngineFacts.

Variable bladeRF : list dev_call -> dev_call -> Z.


Ltac run_monad :=
  unfold bladerf_sync_tx, call_dev, say, bind, gets, modify, ret; cbn beta iota.

Lemma eob_is_not_sob (t : tag_t) : is_eob t = true -> is_sob t = false.
Proof.
  unfold is_eob, is_sob. intros H. apply String.eqb_eq in H. now rewrite H.
Qed.

Lemma on_tag_sob_in_burst n nread t l s :
  is_sob t = true -> _in_burst s = true ->
  on_tag bladeRF n nread t l s =
  (Val (Return BLADERF_ERR_INVAL),
   push_cerr Got_SOB_while_already_within_a_burst s).
Proof.
  unfold is_sob, on_tag. intros -> H. run_monad. now rewrite H.
Qed.

Lemma on_tag_sob_idle n nread t l s :
  is_sob t = true -> _in_burst s = false ->
  on_tag bladeRF n nread t l s =
  (Val (Next (mk_locals (rel_offset t nread) (end_idx l)
                        (Z.lor (meta_flags l) START_FLAGS) (status l))),
   set_in_burst true s).
Proof.
  unfold is_sob, on_tag. intros -> H. run_monad. now rewrite H.
Qed.

Lemma on_tag_eob_idle n nread t l s :
  is_eob t = true -> _in_burst s = false ->
  on_tag bladeRF n nread t l s =
  (Val (Return BLADERF_ERR_INVAL), push_cerr Got_EOB_while_not_in_burst s).
Proof.
  intros He H. pose proof (eob_is_not_sob _ He) as Hs.
  unfold is_sob, is_eob in *. unfold on_tag. rewrite Hs, He.
  run_monad. now rewrite H.
Qed.

Lemma on_tag_eob_invalid n nread t l s :
  is_eob t = true -> _in_burst s = true ->
  start_idx l = INVALID_IDX \/ start_idx l > rel_offset t nread ->
  on_tag bladeRF n nread t l s = (Val (Return BLADERF_ERR_INVAL), s).
Proof.
  intros He H Hbad. pose proof (eob_is_not_sob _ He) as Hs.
  unfold is_sob, is_eob in *. unfold on_tag. rewrite Hs, He.
  run_monad. rewrite H. cbn [negb].
  replace ((start_idx l =? INVALID_IDX) || (start_idx l >? rel_offset t nread))
    with true; [reflexivity|].
  symmetry. apply orb_true_iff. destruct Hbad as [Hb|Hb].
  - left. now apply Z.eqb_eq.
  - right. apply Z.gtb_lt. lia.
Qed.

Lemma on_tag_eob_valid n nread t l s :
  is_eob t = true -> _in_burst s = true ->
  start_idx l <> INVALID_IDX -> start_idx l <= rel_offset t nread ->
  let data := data_call s (start_idx l) (rel_offset t nread) (meta_flags l) in
  let trailer := trailer_call s (meta_flags l) in
  let st := bladeRF (dev_calls s) data in
  let st' := bladeRF (dev_calls s ++ [data]) trailer in
  on_tag bladeRF n nread t l s =
  if st =? 0 then
    (Val (if st' =? 0 then Next (mk_locals INVALID_IDX (n - 1) 0 st')
          else Return st'),
     set_in_burst false (push_call trailer (push_call data s)))
  else (Val (Return st), push_call data s).
Proof.
  intros He H Hs1 Hs2. pose proof (eob_is_not_sob _ He) as Hs.
  unfold is_sob, is_eob in *. unfold on_tag. rewrite Hs, He.
  run_monad. rewrite H. cbn [negb].
  replace ((start_idx l =? INVALID_IDX) || (start_idx l >? rel_offset t nread))
    with false.
  2:{ symmetry. apply orb_false_iff. split.
      - now apply Z.eqb_neq.
      - rewrite Z.gtb_ltb. apply Z.ltb_ge. lia. }
  unfold data_call, trailer_call, START_FLAGS. cbn zeta.
  destruct (bladeRF (dev_calls s) _ =? 0); cbn [negb]; [|reflexivity].
  cbn [dev_calls push_call _stream_timeout_ms].
  destruct (bladeRF (dev_calls s ++ _) _ =? 0); reflexivity.
Qed.

Lemma on_tag_plain n nread t l s :
  is_plain t = true -> on_tag bladeRF n nread t l s = (Val (Next l), s).
Proof.
  unfold is_plain, is_sob, is_eob, on_tag. intros H.
  apply andb_true_iff in H as [H1 H2].
  apply negb_true_iff in H1, H2. now rewrite H1, H2.
Qed.

Lemma tag_cases (t : tag_t) :
  is_sob t = true \/ is_eob t = true \/ is_plain t = true.
Proof.
  unfold is_plain. destruct (is_sob t); [now left|].
  destruct (is_eob t); [right; now left|right; now right].
Qed.

Lemma foreach_tag_app n nread a b l s :
  foreach_tag bladeRF n nread (a ++ b) l s =
  match foreach_tag bladeRF n nread a l s with
  | (Val (Next l'), s') => foreach_tag bladeRF n nread b l' s'
  | (Val (Return st), s') => (Val (Return st), s')
  | (Exn e, s') => (Exn e, s')
  end.
Proof.
  revert l s. induction a as [|t a IH]; intros l s.
  - reflexivity.
  - cbn [app foreach_tag]. unfold bind.
    destruct (on_tag bladeRF n nread t l s) as [[[st|l']|e] s']; try reflexivity.
    apply IH.
Qed.

Lemma foreach_tag_one n nread t l s :
  foreach_tag bladeRF n nread [t] l s = on_tag bladeRF n nread t l s.
Proof.
  cbn [foreach_tag]. unfold bind.
  destruct (on_tag bladeRF n nread t l s) as [[[st|l']|e] s']; reflexivity.
Qed.

Lemma transmit_with_tags_cons n nread t tags s :
  transmit_with_tags bladeRF n nread (t :: tags) s =
  match foreach_tag bladeRF n nread (t :: tags) (init_locals n) s with
  | (Val f, s') => after_tags bladeRF f s'
  | (Exn e, s') => (Exn e, s')
  end.
Proof.
  unfold transmit_with_tags.
  replace (Z.of_nat (List.length (t :: tags)) =? 0) with false.
  2:{ symmetry. apply Z.eqb_neq. cbn [List.length]. lia. }
  unfold bind at 1. unfold gets at 1. cbn [andb].
  unfold bind at 1. unfold ret at 1. unfold bind at 1. reflexivity.
Qed.

Lemma existsb_snoc {A} (f : A -> bool) (l : list A) (x : A) :
  existsb f (l ++ [x]) = existsb f l || f x.
Proof. rewrite existsb_app. cbn. now rewrite orb_false_r. Qed.

Lemma foreach_tag_inv n nread s0 pre :
  n <= INT_MAX -> tags_in_window n nread pre ->
  forall l s,
    foreach_tag bladeRF n nread pre (init_locals n) s0 = (Val (Next l), s) ->
    loop_inv n s0 pre l s.
Proof.
  intros Hn. induction pre as [|t pre IH] using rev_ind; intros Hw l s Hrun.
  - cbn in Hrun. unfold ret in Hrun. injection Hrun as <- <-.
    unfold loop_inv, init_locals; cbn [status end_idx meta_flags start_idx existsb].
    repeat split. destruct (_in_burst s0); auto.
  - apply Forall_app in Hw as [Hw Ht]. apply Forall_inv in Ht.
    rewrite foreach_tag_app in Hrun.
    destruct (foreach_tag bladeRF n nread pre (init_locals n) s0)
      as [[[st|l']|e] s'] eqn:Hpre; try discriminate.
    specialize (IH Hw l' s' eq_refl).
    destruct IH as (Hst & Hend & Hto & Hfl).
    rewrite foreach_tag_one in Hrun. unfold loop_inv. rewrite existsb_snoc.
    destruct (tag_cases t) as [Hs|[He|Hp]].
    + destruct (_in_burst s') eqn:Hb.
      * rewrite on_tag_sob_in_burst in Hrun by assumption. discriminate.
      * rewrite on_tag_sob_idle in Hrun by assumption.
        injection Hrun as <- <-.
        cbn [status end_idx meta_flags start_idx _in_burst set_in_burst
             _stream_timeout_ms].
        rewrite Hs, orb_true_r, Hfl.
        rewrite (rel_offset_in_window n) by assumption.
        repeat split; try assumption; lia.
    + pose proof (eob_is_not_sob _ He) as Hs. rewrite Hs, orb_false_r.
      destruct (_in_burst s') eqn:Hb.
      * destruct (Z.eq_dec (start_idx l') INVALID_IDX) as [Hi|Hi].
        { rewrite on_tag_eob_invalid in Hrun by auto. discriminate. }
        destruct (Z_le_gt_dec (start_idx l') (rel_offset t nread)) as [Hle|Hgt].
        2:{ rewrite on_tag_eob_invalid in Hrun by auto. discriminate. }
        rewrite on_tag_eob_valid in Hrun by assumption. cbv zeta in Hrun.
        destruct (bladeRF (dev_calls s') _ =? 0); [|discriminate].
        destruct (bladeRF (dev_calls s' ++ _) _ =? 0) eqn:Hz; [|discriminate].
        apply Z.eqb_eq in Hz. injection Hrun as <- <-.
        cbn [status end_idx meta_flags start_idx _in_burst set_in_burst
             push_call _stream_timeout_ms].
        repeat split; assumption.
      * rewrite on_tag_eob_idle in Hrun by assumption. discriminate.
    + rewrite on_tag_plain in Hrun by assumption. injection Hrun as <- <-.
      unfold is_plain in Hp. apply andb_true_iff in Hp as [Hp _].
      apply negb_true_iff in Hp. rewrite Hp, orb_false_r.
      repeat split; assumption.
Qed.

Lemma transmit_with_tags_returns_at n nread pre t post s l1 s1 st s2 :
  foreach_tag bladeRF n nread pre (init_locals n) s = (Val (Next l1), s1) ->
  on_tag bladeRF n nread t l1 s1 = (Val (Return st), s2) ->
  transmit_with_tags bladeRF n nread (pre ++ t :: post) s = (Val st, s2).
Proof.
  intros Hpre Ht.
  assert (Hloop : foreach_tag bladeRF n nread (pre ++ t :: post) (init_locals n) s
                  = (Val (Return st), s2)).
  { rewrite foreach_tag_app, Hpre. cbn [foreach_tag].
    unfold bind. now rewrite Ht. }
  destruct pre as [|p pre]; cbn [app] in *;
    rewrite transmit_with_tags_cons, Hloop; reflexivity.
Qed.

Lemma trailer_flags (flags : Z) :
  flags = START_FLAGS \/ flags = 0 ->
  Z.lor (Z.land flags (Z.lnot START_FLAGS)) BLADERF_META_FLAG_TX_BURST_END
  = BLADERF_META_FLAG_TX_BURST_END.
Proof. intros [->| ->]; reflexivity. Qed.

(** C1. A call that reaches an end of burst while in a burst, with a
    recorded start not after the end, sends the samples [start .. end]
    from index [2*start] of the conversion buffer ([end - start + 1]
    samples) with the start and send-now flags when the start of burst is
    among the tags already walked in this call, and with no flags when the
    burst was open on entry.  If that call fails its status is returned
    and nothing else is sent; if it succeeds a trailer of four zero
    samples follows at once, flagged burst-end only, and the state is
    Idle. *)
Theorem C1_end_of_burst_sends_segment_then_trailer
    (n nread : Z) (pre post : list tag_t) (eob : tag_t)
    (s s1 : bladerf_sink_c) (l1 : locals) :
  n <= INT_MAX ->
  tags_in_window n nread (pre ++ eob :: post) ->
  is_eob eob = true ->
  foreach_tag bladeRF n nread pre (init_locals n) s = (Val (Next l1), s1) ->
  _in_burst s1 = true ->
  start_idx l1 <= rel_offset eob nread ->
  let first := start_idx l1 in
  let last := rel_offset eob nread in
  let flags := if existsb is_sob pre then START_FLAGS else 0 in
  let data :=
    sync_tx (conv_buf_at (2 * first)) (last - first + 1) (Some flags)
            (_stream_timeout_ms s) in
  let trailer :=
    sync_tx (local_buf [0; 0; 0; 0; 0; 0; 0; 0]) 4
            (Some BLADERF_META_FLAG_TX_BURST_END) (_stream_timeout_ms s) in
  let st := bladeRF (dev_calls s1) data in
  let st' := bladeRF (dev_calls s1 ++ [data]) trailer in
  let s2 := set_in_burst false (push_call trailer (push_call data s1)) in
  last = offset eob - nread /\
  (existsb is_sob pre = false -> _in_burst s = true /\ first = 0) /\
  (st <> 0 ->
     transmit_with_tags bladeRF n nread (pre ++ eob :: post) s
     = (Val st, push_call data s1)) /\
  (st = 0 ->
     foreach_tag bladeRF n nread (pre ++ [eob]) (init_locals n) s
     = (Val (if st' =? 0 then Next (mk_locals INVALID_IDX (n - 1) 0 0)
             else Return st'), s2)
     /\ dev_calls s2 = dev_calls s1 ++ [data; trailer]
     /\ _in_burst s2 = false
     /\ (st' <> 0 ->
         transmit_with_tags bladeRF n nread (pre ++ eob :: post) s = (Val st', s2))).
Proof.
  intros Hn Hw He Hpre Hb Hle first last flags data trailer st st' s2.
  pose proof Hw as Hw'. apply Forall_app in Hw' as [Hwpre Hwe].
  apply Forall_inv in Hwe.
  pose proof (foreach_tag_inv n nread s pre Hn Hwpre l1 s1 Hpre)
    as (Hst & Hend & Hto & Hfl).
  rewrite Hb in Hfl.
  assert (Hflags : meta_flags l1 = flags /\ 0 <= first).
  { subst flags first. destruct (existsb is_sob pre); split; lia. }
  destruct Hflags as [Hflags Hfirst].
  assert (Hvalid := on_tag_eob_valid n nread eob l1 s1 He Hb
                      ltac:(unfold INVALID_IDX; subst first; lia) Hle).
  cbv zeta in Hvalid. unfold data_call, trailer_call in Hvalid.
  rewrite trailer_flags in Hvalid
    by (rewrite Hflags; subst flags; destruct (existsb is_sob pre); auto).
  rewrite Hflags, Hto in Hvalid.
  change zeros with [0; 0; 0; 0; 0; 0; 0; 0] in Hvalid.
  fold first last data trailer st st' s2 in Hvalid.
  split; [apply (rel_offset_in_window n); assumption|].
  split. { intros Hno. rewrite Hno in Hfl. subst first. tauto. }
  split.
  - intros Hnz. apply Z.eqb_neq in Hnz. rewrite Hnz in Hvalid.
    eapply transmit_with_tags_returns_at; eassumption.
  - intros Hz. apply Z.eqb_eq in Hz. rewrite Hz in Hvalid.
    split; [|split; [|split]].
    + rewrite foreach_tag_app, Hpre, foreach_tag_one, Hvalid.
      destruct (st' =? 0) eqn:Hz'; [|reflexivity].
      apply Z.eqb_eq in Hz'. now rewrite Hz'.
    + subst s2. cbn [dev_calls set_in_burst push_call].
      now rewrite <- app_assoc.
    + reflexivity.
    + intros Hnz. apply Z.eqb_neq in Hnz. rewrite Hnz in Hvalid.
      eapply transmit_with_tags_returns_at; eassumption.
Qed.

Lemma transmit_with_tags_nil (n nread : Z) (s : bladerf_sink_c) :
  transmit_with_tags bladeRF n nread [] s =
  if _in_burst s then
    let whole := sync_tx (conv_buf_at 0) n (Some 0) (_stream_timeout_ms s) in
    (Val (bladeRF (dev_calls s) whole), push_call whole s)
  else (Val 0, push_cerr (Dropping_samples_not_in_a_burst n) s).
Proof.
  unfold transmit_with_tags. run_monad.
  cbn [List.length Z.of_nat Z.eqb andb foreach_tag
       after_tags init_locals meta_flags status].
  destruct (_in_burst s) eqn:Hb.
  - reflexivity.
  - unfold after_tags. run_monad. cbn [_in_burst push_cerr]. rewrite Hb.
    reflexivity.
Qed.


(** C3. A start of burst met while in a burst, an end of burst met while
    Idle, and an end of burst whose recorded start is after its offset
    each make the call return [BLADERF_ERR_INVAL]; no call is made on the
    device for that tag. *)
Theorem C3_protocol_errors
    (n nread : Z) (pre post : list tag_t) (t : tag_t)
    (s s1 : bladerf_sink_c) (l1 : locals) :
  foreach_tag bladeRF n nread pre (init_locals n) s = (Val (Next l1), s1) ->
  (is_sob t = true /\ _in_burst s1 = true) \/
  (is_eob t = true /\ _in_burst s1 = false) \/
  (is_eob t = true /\ _in_burst s1 = true /\
   start_idx l1 > rel_offset t nread) ->
  exists s2,
    on_tag bladeRF n nread t l1 s1 = (Val (Return BLADERF_ERR_INVAL), s2) /\
    transmit_with_tags bladeRF n nread (pre ++ t :: post) s
    = (Val BLADERF_ERR_INVAL, s2) /\
    dev_calls s2 = dev_calls s1.
Proof.
  intros Hpre Hcase.
  assert (Hstep : exists s2,
             on_tag bladeRF n nread t l1 s1 = (Val (Return BLADERF_ERR_INVAL), s2)
             /\ dev_calls s2 = dev_calls s1).
  { destruct Hcase as [[Hs Hb]|[[He Hb]|(He & Hb & Hgt)]].
    - eexists. split; [now apply on_tag_sob_in_burst|reflexivity].
    - eexists. split; [now apply on_tag_eob_idle|reflexivity].
    - eexists. split; [apply on_tag_eob_invalid; auto|reflexivity]. }
  destruct Hstep as (s2 & Hstep & Hcalls). exists s2.
  repeat split; try assumption.
  eapply transmit_with_tags_returns_at; eassumption.
Qed.

(** C9. When a start of burst is refused because a burst is open, or an
    end of burst because none is, the call returns with the burst flag it
    had when the tag was looked at: the state differs from the one before
    the tag only by the line written to [std::cerr]. *)
Theorem C9_rejected_tag_keeps_burst_state
    (n nread : Z) (pre post : list tag_t) (t : tag_t)
    (s s1 : bladerf_sink_c) (l1 : locals) :
  foreach_tag bladeRF n nread pre (init_locals n) s = (Val (Next l1), s1) ->
  (is_sob t = true /\ _in_burst s1 = true) \/
  (is_eob t = true /\ _in_burst s1 = false) ->
  exists line,
    transmit_with_tags bladeRF n nread (pre ++ t :: post) s
    = (Val BLADERF_ERR_INVAL, push_cerr line s1) /\
    _in_burst (push_cerr line s1) = _in_burst s1.
Proof.
  intros Hpre [[Hs Hb]|[He Hb]].
  - exists Got_SOB_while_already_within_a_burst. split; [|reflexivity].
    eapply transmit_with_tags_returns_at; [eassumption|].
    now apply on_tag_sob_in_burst.
  - exists Got_EOB_while_not_in_burst. split; [|reflexivity].
    eapply transmit_with_tags_returns_at; [eassumption|].
    now apply on_tag_eob_idle.
Qed.

Lemma foreach_tag_plain n nread tags l s :
  forallb is_plain tags = true ->
  foreach_tag bladeRF n nread tags l s = (Val (Next l), s).
Proof.
  induction tags as [|t tags IH]; intros Hp; [reflexivity|].
  cbn [forallb] in Hp. apply andb_true_iff in Hp as [Ht Hp].
  cbn [foreach_tag]. unfold bind. rewrite on_tag_plain by assumption.
  now apply IH.
Qed.

Ltac split_ifs :=
  repeat match goal with
         | |- context [if ?c then _ else _] => destruct c
         end.

Lemma on_tag_failures n nread t l s :
  _consecutive_failures (snd (on_tag bladeRF n nread t l s))
  = _consecutive_failures s.
Proof. unfold on_tag. run_monad. split_ifs; reflexivity. Qed.

Lemma foreach_tag_failures n nread tags :
  forall l s,
    _consecutive_failures (snd (foreach_tag bladeRF n nread tags l s))
    = _consecutive_failures s.
Proof.
  induction tags as [|t tags IH]; intros l s; [reflexivity|].
  cbn [foreach_tag]. unfold bind.
  pose proof (on_tag_failures n nread t l s) as Ht.
  destruct (on_tag bladeRF n nread t l s) as [[[st|l']|e] s'];
    cbn [snd] in *; try assumption.
  now rewrite IH.
Qed.

Lemma transmit_with_tags_failures n nread tags s :
  _consecutive_failures (snd (transmit_with_tags bladeRF n nread tags s))
  = _consecutive_failures s.
Proof.
  unfold transmit_with_tags. unfold bind at 1. unfold gets at 1.
  destruct ((Z.of_nat (List.length tags) =? 0) && _in_burst s).
  - reflexivity.
  - unfold bind at 1.
    assert (Hfirst : forall s0,
      exists s1, (if Z.of_nat (List.length tags) =? 0
                  then say (Dropping_samples_not_in_a_burst n)
                  else ret tt) s0 = (Val tt, s1)
                 /\ _consecutive_failures s1 = _consecutive_failures s0).
    { intros s0. destruct (Z.of_nat (List.length tags) =? 0);
        eexists; split; reflexivity. }
    destruct (Hfirst s) as (s1 & -> & <-). unfold bind.
    pose proof (foreach_tag_failures n nread tags (init_locals n) s1) as Hl.
    destruct (foreach_tag bladeRF n nread tags (init_locals n) s1)
      as [[[st|l']|e] s2]; cbn [snd] in *; try assumption.
    unfold after_tags. run_monad. destruct (_in_burst s2); assumption.
Qed.

(** C4, as the code has it.  A start of burst met while Idle and closed
    in the same block by an end of burst not before it gives, when the
    data call succeeds, exactly one data call carrying the start flags
    and then one trailer call of four zero samples without them.  A burst
    still open at the end of the block is sent up to the end of the block
    with the start flags; the block that later brings the end of burst
    sends a further data call, from sample 0 and without start flags,
    and on its success the one trailer call. *)
Theorem C4_burst_calls_same_block_and_later_block
    (n nread : Z) (pre mid post : list tag_t) (sob eob : tag_t)
    (s s1 : bladerf_sink_c) (l1 : locals)
    (n' nread' : Z) (mid' post' : list tag_t) (eob' : tag_t)
    (s' : bladerf_sink_c) :
  n <= INT_MAX ->
  tags_in_window n nread (pre ++ sob :: mid ++ eob :: post) ->
  is_sob sob = true -> is_eob eob = true -> forallb is_plain mid = true ->
  foreach_tag bladeRF n nread pre (init_locals n) s = (Val (Next l1), s1) ->
  _in_burst s1 = false ->
  offset sob <= offset eob ->
  n' <= INT_MAX ->
  tags_in_window n' nread' (mid' ++ eob' :: post') ->
  is_eob eob' = true -> forallb is_plain mid' = true ->
  _in_burst s' = true ->
  let first := offset sob - nread in
  let last := offset eob - nread in
  let trailer timeout :=
    sync_tx (local_buf [0; 0; 0; 0; 0; 0; 0; 0]) 4
            (Some BLADERF_META_FLAG_TX_BURST_END) timeout in
  (* closed in the block that opened it *)
  (let data := data_call s1 first last START_FLAGS in
   let closed :=
     set_in_burst false
       (push_call (trailer (_stream_timeout_ms s1))
          (push_call data (set_in_burst true s1))) in
   bladeRF (dev_calls s1) data = 0 ->
   exists f,
     foreach_tag bladeRF n nread (pre ++ sob :: mid ++ [eob])
                 (init_locals n) s = (Val f, closed) /\
     dev_calls closed
     = dev_calls s1 ++ [data; trailer (_stream_timeout_ms s1)] /\
     one_data_then_trailer [data; trailer (_stream_timeout_ms s1)] = true)
  /\
  (* left open at the end of the block *)
  (let head := data_call s1 first (n - 1) START_FLAGS in
   transmit_with_tags bladeRF n nread (pre ++ sob :: mid) s
   = (Val (bladeRF (dev_calls s1) head),
      push_call head (set_in_burst true s1))
   /\ has_start_flag head = true)
  /\
  (* closed by a later block *)
  (let tail := data_call s' 0 (offset eob' - nread') 0 in
   let closed :=
     set_in_burst false
       (push_call (trailer (_stream_timeout_ms s')) (push_call tail s')) in
   bladeRF (dev_calls s') tail = 0 ->
   exists f,
     foreach_tag bladeRF n' nread' (mid' ++ [eob']) (init_locals n') s'
     = (Val f, closed) /\
     dev_calls closed
     = dev_calls s' ++ [tail; trailer (_stream_timeout_ms s')] /\
     has_start_flag tail = false /\
     has_start_flag (trailer (_stream_timeout_ms s')) = false).
Proof.
  intros Hn Hw Hsob Heob Hmid Hpre Hidle Hord Hn' Hw' Heob' Hmid' Hb'
         first last trailer.
  apply Forall_app in Hw as [Hwpre Hw]. pose proof (Forall_inv Hw) as Hws.
  apply Forall_inv_tail, Forall_app in Hw as [_ Hw].
  apply Forall_inv in Hw.
  apply Forall_app in Hw' as [_ Hw']. apply Forall_inv in Hw'.
  cbv beta in Hws, Hw, Hw'.
  pose proof (foreach_tag_inv n nread s pre Hn Hwpre l1 s1 Hpre)
    as (Hst & Hend & Hto & Hfl).
  rewrite Hidle in Hfl.
  pose proof (rel_offset_in_window n nread sob Hn Hws) as Hrs.
  pose proof (rel_offset_in_window n nread eob Hn Hw) as Hre.
  pose proof (rel_offset_in_window n' nread' eob' Hn' Hw') as Hre'.
  (* the loop up to and including the start of burst *)
  assert (Hopen :
    foreach_tag bladeRF n nread (pre ++ sob :: mid) (init_locals n) s
    = (Val (Next (mk_locals first (n - 1) START_FLAGS 0)),
       set_in_burst true s1)).
  { rewrite foreach_tag_app, Hpre. cbn [foreach_tag]. unfold bind.
    rewrite on_tag_sob_idle by assumption.
    rewrite foreach_tag_plain by assumption.
    rewrite Hrs, Hend, Hfl, Hst. reflexivity. }
  split; [|split].
  - intros data closed Hok.
    assert (Hstep := on_tag_eob_valid n nread eob
              (mk_locals first (n - 1) START_FLAGS 0) (set_in_burst true s1)
              Heob eq_refl).
    cbn [start_idx meta_flags] in Hstep.
    specialize (Hstep ltac:(unfold INVALID_IDX; subst first; lia)
                      ltac:(rewrite Hre; subst first; lia)).
    cbv zeta in Hstep. rewrite Hre in Hstep.
    unfold data_call, trailer_call in Hstep.
    rewrite trailer_flags in Hstep by auto.
    cbn [_stream_timeout_ms set_in_burst dev_calls] in Hstep.
    change zeros with [0; 0; 0; 0; 0; 0; 0; 0] in Hstep.
    fold last in Hstep.
    change (sync_tx (conv_buf_at (2 * first)) (last - first + 1)
                    (Some START_FLAGS) (_stream_timeout_ms s1))
      with data in Hstep.
    rewrite Hok in Hstep. cbn [Z.eqb] in Hstep.
    eexists. split; [|split].
    + replace (pre ++ sob :: mid ++ [eob])
        with ((pre ++ sob :: mid) ++ [eob])
        by (rewrite <- app_assoc; reflexivity).
      rewrite foreach_tag_app, Hopen, foreach_tag_one. exact Hstep.
    + subst closed. cbn [dev_calls set_in_burst push_call].
      now rewrite <- app_assoc.
    + reflexivity.
  - intros head. split; [|reflexivity].
    assert (Hne : exists t tags, pre ++ sob :: mid = t :: tags).
    { destruct pre; cbn [app]; eauto. }
    destruct Hne as (t & tags & Hne). rewrite Hne in *.
    rewrite transmit_with_tags_cons, Hopen.
    unfold after_tags. run_monad. reflexivity.
  - intros tail closed Hok.
    assert (Hstep := on_tag_eob_valid n' nread' eob' (init_locals n') s'
                       Heob' Hb').
    cbn [start_idx meta_flags init_locals] in Hstep.
    specialize (Hstep ltac:(unfold INVALID_IDX; lia)
                      ltac:(rewrite Hre'; lia)).
    cbv zeta in Hstep. rewrite Hre' in Hstep.
    unfold trailer_call in Hstep.
    rewrite trailer_flags in Hstep by auto.
    change zeros with [0; 0; 0; 0; 0; 0; 0; 0] in Hstep.
    fold tail in Hstep. rewrite Hok in Hstep. cbn [Z.eqb] in Hstep.
    eexists. split; [|split; [|split]].
    + rewrite foreach_tag_app, foreach_tag_plain by assumption.
      rewrite foreach_tag_one. exact Hstep.
    + subst closed. cbn [dev_calls set_in_burst push_call].
      now rewrite <- app_assoc.
    + reflexivity.
    + reflexivity.
Qed.

(** C8. [start] clears the burst flag and only then configures the
    stream: whatever the flag was, it is false when [start] returns, with
    either result, and [stop] leaves the flag as it finds it. *)
Theorem C8_start_resets_burst_state (s : bladerf_sink_c) :
  start bladeRF s
  = bladerf_common_start bladeRF BLADERF_MODULE_TX (set_in_burst false s)
  /\ _in_burst (snd (start bladeRF s)) = false
  /\ _in_burst (snd (stop bladeRF s)) = _in_burst s
  /\ _in_burst (snd (start bladeRF (snd (stop bladeRF s)))) = false.
Proof.
  assert (Hstart : forall s0, _in_burst (snd (start bladeRF s0)) = false).
  { intros s0. unfold start, bladerf_common_start. run_monad.
    split_ifs; reflexivity. }
  split; [reflexivity|]. split; [apply Hstart|]. split; [|apply Hstart].
  unfold stop, bladerf_common_stop. run_monad. split_ifs; reflexivity.
Qed.

End EngineFacts.

(** ** The work function and the failure counter *)

Section WorkFacts.

Variable bladeRF : list dev_call -> dev_call -> Z.
Variable realloc_ok : Z -> bool.
Variable MAX_CONSECUTIVE_FAILURES : Z.

Lemma work_transmit_failures n nread tags s :
  _consecutive_failures
    (snd (work_transmit bladeRF realloc_ok n nread tags s))
  = _consecutive_failures s.
Proof.
  unfold work_transmit, bind, gets, modify, throw, ret. cbn beta iota.
  destruct (n >? _conv_buf_size s); [destruct (realloc_ok (n * 2 * 2))|];
    cbn [_use_metadata set_conv_buf_size snd]; try reflexivity.
  - destruct (_use_metadata s); [|reflexivity].
    now rewrite transmit_with_tags_failures.
  - destruct (_use_metadata s); [|reflexivity].
    now rewrite transmit_with_tags_failures.
Qed.

Lemma work_account_eq r n s :
  work_account MAX_CONSECUTIVE_FAILURES r n s =
  if r =? 0 then (Val n, set_consecutive_failures 0 s)
  else
    let c := to_uint (_consecutive_failures s + 1) in
    let s' := set_consecutive_failures c (push_cerr (bladerf_sync_tx_error r) s) in
    if MAX_CONSECUTIVE_FAILURES <=? c
    then (Val WORK_DONE, push_cerr Consecutive_error_limit_hit s')
    else (Val n, s').
Proof.
  unfold work_account, say, bind, gets, modify, ret.
  destruct (r =? 0); cbn [negb]; [reflexivity|].
  cbn [_consecutive_failures set_consecutive_failures push_cerr].
  rewrite Z.geb_leb.
  destruct (MAX_CONSECUTIVE_FAILURES <=? _); reflexivity.
Qed.

Lemma run_work_characterised (blocks : list block) :
  forall (before : list Z) (s s' : bladerf_sink_c) (tr : list (Z * Z * Z)),
    _consecutive_failures s = trailing_failures before ->
    Z.of_nat (List.length before) + Z.of_nat (List.length blocks) < 2 ^ 32 ->
    run_work bladeRF realloc_ok MAX_CONSECUTIVE_FAILURES blocks s = (tr, s') ->
    _consecutive_failures s' = trailing_failures (before ++ statuses tr) /\
    forall tr1 n r v tr2,
      tr = tr1 ++ (n, r, v) :: tr2 ->
      v = if negb (r =? 0)
             && (MAX_CONSECUTIVE_FAILURES
                 <=? trailing_failures (before ++ statuses tr1 ++ [r]))
          then WORK_DONE else n.
Proof.
  induction blocks as [|b blocks IH]; intros before s s' tr Hc Hlen Hrun.
  - cbn in Hrun. injection Hrun as <- <-. cbn [statuses map].
    rewrite app_nil_r. split; [assumption|].
    intros [|] ? ? ? ? Hnil; discriminate.
  - cbn [run_work] in Hrun. cbn [List.length] in Hlen.
    rewrite Nat2Z.inj_succ in Hlen.
    pose proof (work_transmit_failures (blk_items b) (blk_nread b)
                  (blk_tags b) s) as Hframe.
    destruct (work_transmit bladeRF realloc_ok (blk_items b) (blk_nread b)
                            (blk_tags b) s) as [[r|e] s1];
      cbn [snd] in Hframe.
    2:{ injection Hrun as <- <-. cbn [statuses map]. rewrite app_nil_r.
        split; [congruence|]. intros [|] ? ? ? ? Hnil; discriminate. }
    rewrite work_account_eq in Hrun. cbv zeta in Hrun.
    pose proof (trailing_failures_bounds before) as Hb.
    assert (Hwrap : to_uint (_consecutive_failures s1 + 1)
                    = trailing_failures before + 1).
    { unfold to_uint. rewrite Hframe, Hc. apply Z.mod_small. lia. }
    rewrite Hwrap in Hrun.
    assert (Hsnoc := trailing_failures_snoc before r).
    set (v := if negb (r =? 0)
                 && (MAX_CONSECUTIVE_FAILURES
                     <=? trailing_failures (before ++ [r]))
              then WORK_DONE else blk_items b).
    assert (Hhead : exists s2,
      (if r =? 0 then (Val (blk_items b), set_consecutive_failures 0 s1)
       else if MAX_CONSECUTIVE_FAILURES <=? trailing_failures before + 1
            then (Val WORK_DONE,
                  push_cerr Consecutive_error_limit_hit
                    (set_consecutive_failures (trailing_failures before + 1)
                       (push_cerr (bladerf_sync_tx_error r) s1)))
            else (Val (blk_items b),
                  set_consecutive_failures (trailing_failures before + 1)
                    (push_cerr (bladerf_sync_tx_error r) s1)))
      = (Val v, s2)
      /\ _consecutive_failures s2 = trailing_failures (before ++ [r])).
    { subst v. rewrite Hsnoc. destruct (r =? 0); cbn [negb andb].
      - eexists; split; reflexivity.
      - destruct (MAX_CONSECUTIVE_FAILURES <=? _);
          eexists; split; reflexivity. }
    destruct Hhead as (s2 & Hhead & Hc2). rewrite Hhead in Hrun.
    destruct (run_work bladeRF realloc_ok MAX_CONSECUTIVE_FAILURES blocks s2)
      as [tr' s3] eqn:Hrest.
    injection Hrun as <- <-.
    specialize (IH (before ++ [r]) s2 s3 tr' Hc2).
    rewrite length_app in IH. cbn [List.length] in IH.
    specialize (IH ltac:(lia) Hrest). destruct IH as [IHc IHv].
    cbn [statuses map fst snd]. fold (statuses tr').
    rewrite <- app_assoc in IHc. cbn [app] in IHc.
    split; [exact IHc|].
    intros [|e1 tr1] n0 r0 v0 tr2 Hsplit; cbn [app] in Hsplit.
    + injection Hsplit as <- <- <- _. reflexivity.
    + injection Hsplit as <- Hsplit. cbn [statuses map fst snd].
      fold (statuses tr1). specialize (IHv tr1 n0 r0 v0 tr2 Hsplit).
      rewrite <- app_assoc in IHv. exact IHv.
Qed.

(** C7.  In a [work] call a nonzero transmit status adds one to
    [_consecutive_failures], and the call returns [WORK_DONE] instead of
    the item count when the counter has reached
    [MAX_CONSECUTIVE_FAILURES]; a zero status sets the counter to 0.
    Hence, in a run that starts with the counter at 0, the counter is the
    number of failures since the last success, and a call returns
    [WORK_DONE] exactly when it fails and is at least the
    [MAX_CONSECUTIVE_FAILURES]-th failure in a row: first at the
    [MAX_CONSECUTIVE_FAILURES]-th consecutive failure, never on a
    success and never while fewer failures separate it from the last
    success. *)
Theorem C7_consecutive_failures_shutdown
    (blocks : list block) (s s' : bladerf_sink_c) (tr : list (Z * Z * Z)) :
  _consecutive_failures s = 0 ->
  Z.of_nat (List.length blocks) < 2 ^ 32 ->
  run_work bladeRF realloc_ok MAX_CONSECUTIVE_FAILURES blocks s = (tr, s') ->
  (forall n nread tags s0 r s1,
     work_transmit bladeRF realloc_ok n nread tags s0 = (Val r, s1) ->
     exists v s2,
       work bladeRF realloc_ok MAX_CONSECUTIVE_FAILURES n nread tags s0
       = (Val v, s2) /\
       _consecutive_failures s2
       = (if r =? 0 then 0 else to_uint (_consecutive_failures s0 + 1)) /\
       v = if negb (r =? 0)
              && (MAX_CONSECUTIVE_FAILURES <=? _consecutive_failures s2)
           then WORK_DONE else n) /\
  _consecutive_failures s' = trailing_failures (statuses tr) /\
  (forall tr1 n r v tr2,
     tr = tr1 ++ (n, r, v) :: tr2 ->
     v = if negb (r =? 0)
            && (MAX_CONSECUTIVE_FAILURES
                <=? trailing_failures (statuses tr1 ++ [r]))
         then WORK_DONE else n).
Proof.
  intros Hc Hlen Hrun. split.
  - intros n nread tags s0 r s1 Ht.
    pose proof (work_transmit_failures n nread tags s0) as Hframe.
    unfold work, bind. rewrite Ht in *. cbn [snd] in Hframe.
    rewrite work_account_eq. cbv zeta. rewrite Hframe.
    destruct (r =? 0); cbn [negb andb].
    + eexists. eexists. split; [reflexivity|]. split; reflexivity.
    + destruct (MAX_CONSECUTIVE_FAILURES <=? _) eqn:Hm;
        eexists; eexists; (split; [reflexivity|]);
        cbn [_consecutive_failures set_consecutive_failures push_cerr];
        rewrite Hm; split; reflexivity.
  - apply (run_work_characterised blocks [] s s' tr); auto.
Qed.


End WorkFacts.

(** ** The buffer configuration *)

Section InitFacts.

Variable lexical_cast_size_t : string -> option Z.
Variable lexical_cast_unsigned_int : string -> option Z.

Lemma multiple_of_1024 (v : Z) :
  (v <? 1024) || negb (v mod 1024 =? 0) = negb (positive_multiple_of_1024 v).
Proof.
  unfold positive_multiple_of_1024.
  destruct (Z.ltb_spec v 1024), (Z.ltb_spec 0 v),
           (Z.eqb_spec (v mod 1024) 0); cbn; try reflexivity; try lia.
  rewrite Z.mod_small in * by lia. lia.
Qed.

Ltac split_hyp H :=
  repeat match type of H with
         | context [match ?c with Some _ => _ | None => _ end] =>
             destruct c eqn:?
         | context [if ?c then _ else _] => destruct c eqn:?
         end.

Lemma init_read_arg (k : string) (cast : string -> option Z)
      (store : Z -> bladerf_sink_c -> bladerf_sink_c) dict s :
  (if negb (dict_count dict k =? 0)
   then v <- lexical_cast cast (dict_get dict k) ;; modify (store v)
   else ret tt) s
  = match dict_find dict k with
    | None => (Val tt, s)
    | Some str => match cast str with
                  | Some z => (Val tt, store z s)
                  | None => (Exn "bad lexical cast: source type value could not be interpreted as target", s)
                  end
    end.
Proof.
  unfold dict_count, dict_get, lexical_cast, bind, modify, ret, throw.
  destruct (dict_find dict k) as [str|]; cbn; [|reflexivity].
  destruct (cast str); reflexivity.
Qed.

Ltac next_if H :=
  match type of H with
  | context [if ?c then _ else _] => destruct c eqn:?
  end;
  cbn [_num_buffers _samples_per_buffer _num_transfers _stream_timeout_ms
       set_num_buffers set_samples_per_buffer set_num_transfers
       set_stream_timeout_ms set_use_metadata push_cerr] in H.

Lemma init_default_then_read (k : string) (cast : string -> option Z)
      (store : Z -> bladerf_sink_c -> bladerf_sink_c) (d : Z)
      (rest : M bladerf_sink_c unit) dict s s' :
  (forall z s0, store z (store d s0) = store z s0) ->
  (modify (store d) ;;
   (if negb (dict_count dict k =? 0)
    then v <- lexical_cast cast (dict_get dict k) ;; modify (store v)
    else ret tt) ;;
   rest) s = (Val tt, s') ->
  rest (store (match arg cast dict k with Some v => v | None => d end) s)
  = (Val tt, s').
Proof.
  intros Hstore. unfold bind at 1. unfold modify at 1. cbn beta iota.
  unfold bind at 1. rewrite init_read_arg. unfold arg.
  destruct (dict_find dict k) as [str|]; [|trivial].
  destruct (cast str); [|discriminate]. now rewrite Hstore.
Qed.

(** C6, as the code has it.  [_samples_per_buffer] is 4096 when [buflen]
    is absent or is not a positive multiple of 1024, otherwise the value
    given; the warning is written when the value given is not a positive
    multiple of 1024 and is not 0.  [_num_buffers] is 32 when [buffers]
    is absent or at most 1.  [_num_transfers] is min([_num_buffers] / 2,
    32) when [transfers] is absent (or 0), and [_num_buffers] - 1, with a
    warning, when the value given is at least [_num_buffers].
    [_stream_timeout_ms] is 3000 unless given.  In every case
    [_num_buffers >= 2], [_samples_per_buffer] is a positive multiple of
    1024 and [1 <= _num_transfers < _num_buffers]. *)
Theorem C6_stream_parameters (dict : dict_t) (s s' : bladerf_sink_c) :
  (forall str z, lexical_cast_size_t str = Some z -> size_t_range z) ->
  init_stream_config lexical_cast_size_t lexical_cast_unsigned_int dict s
  = (Val tt, s') ->
  let buffers := arg lexical_cast_size_t dict "buffers" in
  let buflen := arg lexical_cast_size_t dict "buflen" in
  let transfers := arg lexical_cast_size_t dict "transfers" in
  let timeout := arg lexical_cast_unsigned_int dict "stream_timeout_ms" in
  let nb := _num_buffers s' in
  _samples_per_buffer s'
  = match buflen with
    | Some v => if positive_multiple_of_1024 v then v else 4096
    | None => 4096
    end /\
  nb = match buffers with
       | Some v => if v <=? 1 then 32 else v
       | None => 32
       end /\
  _num_transfers s'
  = match transfers with
    | Some v => if v =? 0 then Z.min (nb / 2) 32
                else if v >=? nb then nb - 1 else v
    | None => Z.min (nb / 2) 32
    end /\
  _stream_timeout_ms s'
  = match timeout with Some v => v | None => 3000 end /\
  cerr s'
  = cerr s
    ++ match buflen with
       | Some v => if negb (v =? 0) && negb (positive_multiple_of_1024 v)
                   then [Invalid_buflen_value] else []
       | None => []
       end
    ++ match transfers with
       | Some v => if negb (v =? 0) && (v >=? nb)
                   then [Clamping_num_transfers (nb - 1)] else []
       | None => []
       end /\
  2 <= nb /\
  positive_multiple_of_1024 (_samples_per_buffer s') = true /\
  1 <= _num_transfers s' < nb.
Proof.
  intros Hrange Hinit buffers buflen transfers timeout nb.
  unfold init_stream_config in Hinit.
  apply init_default_then_read in Hinit; [|reflexivity].
  apply init_default_then_read in Hinit; [|reflexivity].
  apply init_default_then_read in Hinit; [|reflexivity].
  apply init_default_then_read in Hinit; [|reflexivity].
  fold buffers buflen transfers timeout in Hinit.
  assert (Hb : forall v, buffers = Some v -> 0 <= v).
  { intros v Hv. unfold buffers, arg in Hv.
    destruct (dict_find dict "buffers"); [|discriminate].
    apply Hrange in Hv. unfold size_t_range in Hv. lia. }
  assert (Ht : forall v, transfers = Some v -> 0 <= v).
  { intros v Hv. unfold transfers, arg in Hv.
    destruct (dict_find dict "transfers"); [|discriminate].
    apply Hrange in Hv. unfold size_t_range in Hv. lia. }
  clearbody buffers buflen transfers timeout.
  unfold say in Hinit. unfold bind, modify, gets, ret in Hinit.
  cbn beta iota in Hinit.
  unfold NUM_BUFFERS, NUM_SAMPLES_PER_BUFFER in Hinit.
  change (4 * 1024) with 4096 in Hinit.
  repeat (next_if Hinit).
  all: injection Hinit as <-; subst nb.
  all: cbn [_num_buffers _samples_per_buffer _num_transfers
            _stream_timeout_ms set_num_buffers set_samples_per_buffer
            set_num_transfers set_stream_timeout_ms set_use_metadata
            push_cerr cerr] in *.
  all: unfold positive_multiple_of_1024.
  all: destruct buffers as [b|]; [specialize (Hb b eq_refl)|clear Hb].
  all: destruct transfers as [t|]; [specialize (Ht t eq_refl)|clear Ht].
  all: destruct buflen as [l|], timeout as [o|].
  all: rewrite ?Z.geb_leb, ?Z.gtb_ltb in *.
  all: try (exfalso; Z.div_mod_to_equations; lia).
  all: repeat match goal with
              | |- context [if ?c then _ else _] => destruct c eqn:?
              end.
  all: try (exfalso; Z.div_mod_to_equations; lia).
  all: rewrite ?app_nil_r, <- ?app_assoc.
  all: repeat split; try reflexivity.
  all: Z.div_mod_to_equations; lia.
Qed.

End InitFacts.

(** ** The device registry *)

Section RegistryFacts.

Variable devinfo : Type.
Variable bladerf_get_devinfo_from_str : string -> option devinfo.
Variable bladerf_devinfo_matches : devinfo -> devinfo -> bool.
Variable probe : devinfo -> list (raw_dev * devinfo) -> option devinfo.

(** libbladeRF opens a device that matches the descriptor it was asked
    for. *)
Hypothesis probe_matches :
  forall info conns found,
    probe info conns = Some found ->
    bladerf_devinfo_matches info found = true.

Local Abbreviation registry := (registry devinfo).
Local Abbreviation cached := (cached_match bladerf_devinfo_matches).
Local Abbreviation open_ :=
  (open bladerf_get_devinfo_from_str bladerf_devinfo_matches probe).

Lemma find_conn_app (l l' : list (raw_dev * devinfo)) (d : raw_dev) :
  find_conn (l ++ l') d
  = match find_conn l d with
    | Some i => Some i
    | None => find_conn l' d
    end.
Proof.
  induction l as [|[d' i] l IH]; cbn [app find_conn]; [reflexivity|].
  destruct (Nat.eqb d' d); [reflexivity|apply IH].
Qed.

Lemma find_conn_filter (l : list (raw_dev * devinfo)) (h d : raw_dev) :
  find_conn (filter (fun c => negb (Nat.eqb (fst c) h)) l) d
  = if Nat.eqb d h then None else find_conn l d.
Proof.
  induction l as [|[d' i] l IH]; cbn [filter find_conn fst].
  - now destruct (Nat.eqb d h).
  - destruct (Nat.eqb d' h) eqn:Hh; cbn [negb find_conn].
    + rewrite IH. destruct (Nat.eqb d h) eqn:Hd; [reflexivity|].
      apply Nat.eqb_eq in Hh. subst d'.
      rewrite Nat.eqb_sym in Hd. now rewrite Hd.
    + rewrite IH. destruct (Nat.eqb d' d) eqn:Hd; [|reflexivity].
      apply Nat.eqb_eq in Hd. subst d'. now rewrite Hh.
Qed.

Lemma get_cached_device_from_spec devs info (r : registry) :
  (forall d, In d devs ->
     (0 < use_count r d)%nat /\ exists i, find_conn (opened r) d = Some i) ->
  get_cached_device_from bladerf_devinfo_matches devs info r =
  match find (cached info r) devs with
  | Some d => (Val (Some d), set_use_count d (S (use_count r d)) r)
  | None => (Val None, r)
  end.
Proof.
  induction devs as [|d devs IH]; intros Hok; [reflexivity|].
  destruct (Hok d (or_introl eq_refl)) as (Hpos & i & Hi).
  cbn [get_cached_device_from find]. unfold bladerf_get_devinfo.
  unfold bind, gets, modify, ret, throw. cbn beta iota.
  unfold expired, cached_match. rewrite Hi.
  replace (Nat.eqb (use_count r d) 0) with false
    by (symmetry; apply Nat.eqb_neq; lia).
  cbn beta iota. rewrite ?Hi.
  destruct (bladerf_devinfo_matches info i); [reflexivity|].
  apply IH. intros d' Hd'. apply Hok. now right.
Qed.

Lemma open_cached (r : registry) name info d :
  registry_ok r ->
  bladerf_get_devinfo_from_str name = Some info ->
  find (cached info r) (_devs r) = Some d ->
  exists r1,
    open_ name r = (Val (Some d), r1) /\
    _devs r1 = _devs r /\
    (forall x, use_count r1 x
               = if Nat.eqb x d then S (use_count r d) else use_count r x) /\
    opened r1 = opened r /\
    next_handle r1 = next_handle r /\
    _devs_mutex r1 = false /\
    trace r1 = trace r ++ [mutex_lock; mutex_unlock].
Proof.
  intros (Hm & Hent & Hfresh) Hfrom Hfind.
  unfold open, with_lock. rewrite Hm, Hfrom.
  set (r0 := push_event devinfo mutex_lock (set_mutex devinfo true r)).
  unfold get_cached_device. unfold bind at 1. unfold bind at 1.
  unfold gets at 1. rewrite get_cached_device_from_spec by exact Hent.
  change (find (cached info r0) (_devs r0))
    with (find (cached info r) (_devs r)).
  rewrite Hfind. eexists. split; [reflexivity|].
  cbn [_devs use_count opened next_handle _devs_mutex trace push_event
       set_mutex set_use_count r0].
  repeat split. now rewrite <- app_assoc.
Qed.

Lemma open_new (r : registry) name info found :
  registry_ok r ->
  bladerf_get_devinfo_from_str name = Some info ->
  find (cached info r) (_devs r) = None ->
  probe info (opened r) = Some found ->
  let h := next_handle r in
  exists r1,
    open_ name r = (Val (Some h), r1) /\
    _devs r1 = _devs r ++ [h] /\
    (forall x, use_count r1 x = if Nat.eqb x h then 1%nat else use_count r x) /\
    opened r1 = opened r ++ [(h, found)] /\
    next_handle r1 = S h /\
    _devs_mutex r1 = false /\
    trace r1 = trace r ++ [mutex_lock; native_open h; mutex_unlock].
Proof.
  intros (Hm & Hent & Hfresh) Hfrom Hfind Hprobe h.
  unfold open, with_lock. rewrite Hm, Hfrom.
  set (r0 := push_event devinfo mutex_lock (set_mutex devinfo true r)).
  unfold get_cached_device. unfold bind at 1. unfold bind at 1.
  unfold gets at 1. rewrite get_cached_device_from_spec by exact Hent.
  change (find (cached info r0) (_devs r0))
    with (find (cached info r) (_devs r)).
  rewrite Hfind. unfold bind at 1. unfold bladerf_open_with_devinfo.
  change (opened r0) with (opened r). rewrite Hprobe.
  unfold bind, modify, ret. cbn beta iota.
  eexists. split; [reflexivity|].
  cbn [_devs use_count opened next_handle _devs_mutex trace push_event
       set_mutex set_use_count set_devs set_opened set_next_handle r0].
  repeat split. rewrite <- !app_assoc. reflexivity.
Qed.

Lemma open_returns (r r1 : registry) name info h :
  registry_ok r ->
  bladerf_get_devinfo_from_str name = Some info ->
  open_ name r = (Val (Some h), r1) ->
  find (cached info r) (_devs r) = Some h \/
  (find (cached info r) (_devs r) = None /\
   h = next_handle r /\ exists found, probe info (opened r) = Some found).
Proof.
  intros Hok Hfrom Hopen.
  destruct (find (cached info r) (_devs r)) as [d|] eqn:Hfind.
  - destruct (open_cached r name info d Hok Hfrom Hfind) as (r' & Ho & _).
    rewrite Ho in Hopen. injection Hopen as -> _. now left.
  - right. split; [reflexivity|].
    destruct (probe info (opened r)) as [found|] eqn:Hprobe.
    + destruct (open_new r name info found Hok Hfrom Hfind Hprobe)
        as (r' & Ho & _).
      rewrite Ho in Hopen. injection Hopen as -> _. eauto.
    + exfalso. destruct Hok as (Hm & Hent & Hfresh).
      unfold open, with_lock in Hopen. rewrite Hm, Hfrom in Hopen.
      unfold get_cached_device in Hopen. unfold bind at 1 in Hopen.
      unfold bind at 1 in Hopen. unfold gets at 1 in Hopen.
      rewrite get_cached_device_from_spec in Hopen by exact Hent.
      change (find (cached info ?r0) (_devs ?r0))
        with (find (cached info r) (_devs r)) in Hopen.
      rewrite Hfind in Hopen. unfold bind at 1 in Hopen.
      unfold bladerf_open_with_devinfo in Hopen.
      cbn [opened push_event set_mutex] in Hopen.
      rewrite Hprobe in Hopen. discriminate.
Qed.

Lemma find_same {A} (f g : A -> bool) (l : list A) :
  (forall x, In x l -> f x = g x) -> find f l = find g l.
Proof.
  induction l as [|a l IH]; intros Hfg; [reflexivity|].
  cbn [find]. rewrite (Hfg a (or_introl eq_refl)).
  destruct (g a); [reflexivity|]. apply IH. intros x Hx. apply Hfg. now right.
Qed.

Lemma find_last {A} (f : A -> bool) (l : list A) (a : A) :
  find f l = None -> f a = true -> find f (l ++ [a]) = Some a.
Proof.
  induction l as [|b l IH]; cbn [app find]; intros Hl Ha.
  - now rewrite Ha.
  - destruct (f b); [discriminate|]. now apply IH.
Qed.

(** What a successful [open] leaves behind. *)
Lemma open_facts (r r1 : registry) name info h :
  registry_ok r ->
  bladerf_get_devinfo_from_str name = Some info ->
  open_ name r = (Val (Some h), r1) ->
  registry_ok r1 /\
  (forall x, x <> h -> use_count r1 x = use_count r x) /\
  ((In h (_devs r) /\
    find (cached info r) (_devs r) = Some h /\
    _devs r1 = _devs r /\
    use_count r1 h = S (use_count r h) /\
    opened r1 = opened r /\
    trace r1 = trace r ++ [mutex_lock; mutex_unlock])
   \/
   (~ In h (_devs r) /\
    find (cached info r) (_devs r) = None /\
    _devs r1 = _devs r ++ [h] /\
    use_count r h = 0%nat /\
    use_count r1 h = 1%nat /\
    (exists found,
       opened r1 = opened r ++ [(h, found)] /\
       bladerf_devinfo_matches info found = true) /\
    find_conn (opened r) h = None /\
    trace r1 = trace r ++ [mutex_lock; native_open h; mutex_unlock])).
Proof.
  intros Hok Hfrom Hopen. pose proof Hok as (Hm & Hent & Hfresh).
  destruct (open_returns r r1 name info h Hok Hfrom Hopen)
    as [Hfind|(Hfind & -> & found & Hprobe)].
  - destruct (open_cached r name info h Hok Hfrom Hfind)
      as (r' & Ho & Hd & Hc & Hop & Hn & Hmu & Htr).
    rewrite Ho in Hopen. injection Hopen as <-.
    pose proof (find_some _ _ Hfind) as [Hin _].
    assert (Hcx : forall x, x <> h -> use_count r' x = use_count r x).
    { intros x Hx. rewrite Hc. apply Nat.eqb_neq in Hx. now rewrite Hx. }
    assert (Hch : use_count r' h = S (use_count r h)).
    { rewrite Hc. now rewrite Nat.eqb_refl. }
    split; [|split; [exact Hcx|left; repeat split; assumption]].
    split; [exact Hmu|]. split.
    + intros d Hdin. rewrite Hd in Hdin. rewrite Hop.
      destruct (Hent d Hdin) as [Hpos Hi]. split; [|exact Hi].
      rewrite Hc. destruct (Nat.eqb d h); lia.
    + intros d Hdn. rewrite Hn in Hdn. rewrite Hop.
      destruct (Hfresh d Hdn) as [Hz Hnone]. split; [|exact Hnone].
      rewrite Hc. destruct (Nat.eqb d h) eqn:Hdh; [|exact Hz].
      apply Nat.eqb_eq in Hdh. subst d.
      destruct (Hent h Hin) as [Hpos _]. lia.
  - destruct (open_new r name info found Hok Hfrom Hfind Hprobe)
      as (r' & Ho & Hd & Hc & Hop & Hn & Hmu & Htr).
    cbv zeta in *. set (h := next_handle r) in *.
    rewrite Ho in Hopen. injection Hopen as <-.
    destruct (Hfresh h (Nat.le_refl _)) as [Hz Hnone].
    assert (Hnin : ~ In h (_devs r)).
    { intros Hin. destruct (Hent h Hin) as [Hpos _]. lia. }
    assert (Hcx : forall x, x <> h -> use_count r' x = use_count r x).
    { intros x Hx. rewrite Hc. apply Nat.eqb_neq in Hx. now rewrite Hx. }
    assert (Hch : use_count r' h = 1%nat).
    { rewrite Hc. now rewrite Nat.eqb_refl. }
    split; [|split; [exact Hcx|right]].
    + split; [exact Hmu|]. split.
      * intros d Hdin. rewrite Hd in Hdin. rewrite Hop, find_conn_app.
        apply in_app_or in Hdin as [Hdin|[<-|[]]].
        -- destruct (Hent d Hdin) as [Hpos [i Hi]]. rewrite Hi.
           split; [|eauto]. rewrite Hcx; [exact Hpos|].
           intros ->. contradiction.
        -- rewrite Hch, Hnone. cbn [find_conn]. rewrite Nat.eqb_refl.
           split; [lia|eauto].
      * intros d Hdn. rewrite Hn in Hdn. rewrite Hop, find_conn_app.
        destruct (Hfresh d ltac:(subst h; lia)) as [Hzd Hnd].
        rewrite Hnd. cbn [find_conn].
        replace (Nat.eqb h d) with false
          by (symmetry; apply Nat.eqb_neq; lia).
        split; [|reflexivity]. rewrite Hcx by lia. exact Hzd.
    + repeat split; try assumption.
      exists found. split; [assumption|]. eapply probe_matches; eassumption.
Qed.

(** What dropping the last reference to a handle does. *)
Lemma release_last (r : registry) h :
  registry_ok r -> In h (_devs r) -> use_count r h = 1%nat ->
  exists r',
    sptr_release (Some h) r = (Val tt, r') /\
    (forall x, use_count r' x = if Nat.eqb x h then 0%nat else use_count r x) /\
    _devs r' = filter (fun d => negb (expired r' d)) (_devs r) /\
    opened r' = filter (fun c => negb (Nat.eqb (fst c) h)) (opened r) /\
    next_handle r' = next_handle r /\
    _devs_mutex r' = false /\
    trace r' = trace r ++ [mutex_lock; native_close h; mutex_unlock].
Proof.
  intros (Hm & Hent & Hfresh) Hin Hone.
  unfold sptr_release. unfold bind at 1. unfold gets at 1. rewrite Hone.
  unfold bind at 1. unfold modify at 1. cbn [Nat.eqb].
  unfold close, with_lock. cbn [_devs_mutex set_use_count]. rewrite Hm.
  unfold bladerf_close, bind, modify. cbn beta iota.
  eexists. split; [reflexivity|].
  cbn [_devs use_count opened next_handle _devs_mutex trace push_event
       set_mutex set_use_count set_devs set_opened].
  repeat split. rewrite <- !app_assoc. reflexivity.
Qed.


End RegistryFacts.

(** ** The statements at concrete inputs *)

Lemma empty_registry_ok (devinfo : Type) : registry_ok (@empty_registry devinfo).
Proof.
  split; [reflexivity|]. split.
  - intros d [].
  - intros d _. split; reflexivity.
Qed.

Lemma parse_digits_nonneg (str : string) :
  forall acc v, 0 <= acc -> parse_digits str acc = Some v -> 0 <= v.
Proof.
  induction str as [|c str IH]; intros acc v Hacc Hp; cbn [parse_digits] in Hp.
  - injection Hp as <-. exact Hacc.
  - cbv zeta in Hp.
    destruct ((0 <=? Z.of_nat (Ascii.nat_of_ascii c) - 48)
              && (Z.of_nat (Ascii.nat_of_ascii c) - 48 <=? 9)) eqn:Hd;
      [|discriminate].
    eapply IH; [|exact Hp]. lia.
Qed.

Lemma decimal_cast_range (str : string) (z : Z) :
  decimal_cast str = Some z -> size_t_range z.
Proof.
  unfold decimal_cast, size_t_range. destruct str as [|c str]; [discriminate|].
  destruct (parse_digits (String c str) 0) as [v|] eqn:Hp; [|discriminate].
  destruct (Z.ltb_spec v (2 ^ 64)); [|discriminate].
  intros [= <-]. split; [|assumption].
  now apply (parse_digits_nonneg _ _ _ (Z.le_refl 0) Hp).
Qed.

(** The example of the specification: a block of 100 samples with a start
    of burst at 10 and an end of burst at 60 sends the samples 10..60 with
    the start flags, then four zero samples with the end flag, and ends
    Idle. *)
Lemma C1_witness :
  foreach_tag always_ok 100 0 [sob_at 10; eob_at 60] (init_locals 100)
              metadata_sink
  = (Val (Next (mk_locals INVALID_IDX 99 0 0)),
     set_in_burst false
       (push_call (sync_tx (local_buf [0; 0; 0; 0; 0; 0; 0; 0]) 4 (Some 2) 3000)
          (push_call (sync_tx (conv_buf_at 20) 51 (Some 5) 3000)
             (set_in_burst true metadata_sink)))).
Proof.
  pose proof (C1_end_of_burst_sends_segment_then_trailer always_ok
                100 0 [sob_at 10] [] (eob_at 60) metadata_sink
                (set_in_burst true metadata_sink)
                (mk_locals 10 99 START_FLAGS 0)
                ltac:(unfold INT_MAX; lia)
                ltac:(repeat constructor; cbn; lia)
                eq_refl eq_refl eq_refl
                ltac:(cbn; lia)) as H.
  cbv zeta in H. destruct H as (_ & _ & _ & H).
  destruct (H eq_refl) as (Hrun & _). exact Hrun.
Defined.

Lemma C3_witness :
  exists s2,
    transmit_with_tags always_ok 100 0 [sob_at 10; sob_at 20] metadata_sink
    = (Val BLADERF_ERR_INVAL, s2) /\
    dev_calls s2 = [].
Proof.
  destruct (C3_protocol_errors always_ok 100 0 [sob_at 10] [] (sob_at 20)
              metadata_sink (set_in_burst true metadata_sink)
              (mk_locals 10 99 START_FLAGS 0) eq_refl
              (or_introl (conj eq_refl eq_refl)))
    as (s2 & _ & Hcall & Hcalls).
  exists s2. split; [exact Hcall|exact Hcalls].
Defined.

Lemma C9_witness :
  exists line,
    transmit_with_tags always_ok 100 0 [eob_at 5] metadata_sink
    = (Val BLADERF_ERR_INVAL, push_cerr line metadata_sink) /\
    _in_burst (push_cerr line metadata_sink) = false.
Proof.
  exact (C9_rejected_tag_keeps_burst_state always_ok 100 0 [] [] (eob_at 5)
           metadata_sink metadata_sink (init_locals 100) eq_refl
           (or_intror (conj eq_refl eq_refl))).
Defined.

(** The burst of [burst_over_two_blocks]: the first block ends with a data
    call that carries the start flags, the second sends a data call without
    them and then the trailer; a burst cut by a block boundary makes two
    data calls. *)
Lemma C4_counterexample :
  transmit_blocks always_ok burst_over_two_blocks metadata_sink
  = ([0; 0],
     mk_sink false true 0 4096 32 4096 16 3000
       [sync_tx (conv_buf_at 20) 90 (Some 5) 3000;
        sync_tx (conv_buf_at 0) 61 (Some 0) 3000;
        sync_tx (local_buf [0; 0; 0; 0; 0; 0; 0; 0]) 4 (Some 2) 3000]
       [])
  /\ one_data_then_trailer
       (dev_calls
          (snd (transmit_blocks always_ok burst_over_two_blocks metadata_sink)))
     = false.
Proof. split; reflexivity. Qed.

Lemma C4_witness :
  exists f,
    foreach_tag always_ok 100 0 [sob_at 10; eob_at 60] (init_locals 100)
                metadata_sink
    = (Val f,
       set_in_burst false
         (push_call (sync_tx (local_buf [0; 0; 0; 0; 0; 0; 0; 0]) 4 (Some 2) 3000)
            (push_call (sync_tx (conv_buf_at 20) 51 (Some 5) 3000)
               (set_in_burst true metadata_sink)))).
Proof.
  pose proof (C4_burst_calls_same_block_and_later_block always_ok
                100 0 [] [] [] (sob_at 10) (eob_at 60)
                metadata_sink metadata_sink (init_locals 100)
                100 100 [] [] (eob_at 160)
                (set_in_burst true metadata_sink)
                ltac:(unfold INT_MAX; lia)
                ltac:(repeat constructor; cbn; lia)
                eq_refl eq_refl eq_refl eq_refl eq_refl
                ltac:(cbn; lia)
                ltac:(unfold INT_MAX; lia)
                ltac:(repeat constructor; cbn; lia)
                eq_refl eq_refl eq_refl) as H.
  cbv zeta in H. destruct H as (H & _).
  destruct (H eq_refl) as (f & Hrun & _). exists f. exact Hrun.
Defined.

Lemma example_probe_matches :
  forall (info : string) (conns : list (raw_dev * string)) (found : string),
    (fun p _ => Some p) info conns = Some found ->
    String.eqb info found = true.
Proof. intros info conns found [= <-]. apply String.eqb_refl. Qed.


(** A supplied [buflen] of 0 is not a positive multiple of 1024; the
    default is taken and no warning is written. *)
Lemma C6_counterexample :
  init_stream_config decimal_cast decimal_cast zero_buflen_dict fresh_sink
  = (Val tt, mk_sink false false 0 4096 32 4096 16 3000 [] [])
  /\ arg decimal_cast zero_buflen_dict "buflen"%string = Some 0
  /\ ~ buflen_rule_as_stated
         (arg decimal_cast zero_buflen_dict "buflen"%string)
         (snd (init_stream_config decimal_cast decimal_cast zero_buflen_dict
                 fresh_sink)).
Proof.
  split; [reflexivity|]. split; [reflexivity|].
  intros H. vm_compute in H. destruct H as [_ H]. discriminate H.
Qed.

Lemma C6_witness :
  init_stream_config decimal_cast decimal_cast example_dict fresh_sink
  = (Val tt, example_config) /\
  _samples_per_buffer example_config = 4096 /\
  _num_buffers example_config = 4 /\
  _num_transfers example_config = 3 /\
  cerr example_config = [Invalid_buflen_value; Clamping_num_transfers 3] /\
  1 <= _num_transfers example_config < _num_buffers example_config.
Proof.
  split; [reflexivity|].
  pose proof (C6_stream_parameters decimal_cast decimal_cast example_dict
                fresh_sink example_config decimal_cast_range eq_refl) as H.
  cbv zeta in H. destruct H as (Hspb & Hnb & Hnt & _ & Hcerr & _ & _ & Hinv).
  split; [exact Hspb|]. split; [exact Hnb|]. split; [exact Hnt|].
  split; [exact Hcerr|exact Hinv].
Defined.

(** Three failing calls in a row with a threshold of 3. *)
Lemma C7_witness :
  run_work always_timeout (fun _ => true) 3 three_blocks fresh_sink
  = ([(10, -6, 10); (10, -6, 10); (10, -6, WORK_DONE)], after_three_failures)
  /\ _consecutive_failures after_three_failures = 3.
Proof.
  split; [reflexivity|].
  exact (proj1 (proj2
    (C7_consecutive_failures_shutdown always_timeout (fun _ => true) 3
       three_blocks fresh_sink after_three_failures
       [(10, -6, 10); (10, -6, 10); (10, -6, WORK_DONE)]
       eq_refl ltac:(cbn; lia) eq_refl))).
Defined.


(** * Further facts *)

(** ** The burst engine over whole calls *)

Section EngineCalls.

Variable bladeRF : list dev_call -> dev_call -> Z.

Lemma same_members_refl (s : bladerf_sink_c) : same_members s s.
Proof. repeat split. Qed.

Lemma same_members_trans (s1 s2 s3 : bladerf_sink_c) :
  same_members s1 s2 -> same_members s2 s3 -> same_members s1 s3.
Proof.
  unfold same_members. intros (?&?&?&?&?&?&?) (?&?&?&?&?&?&?).
  repeat split; congruence.
Qed.

(** What one iteration of the loop can do. *)
Lemma on_tag_shape (n nread : Z) (t : tag_t) (l : locals) (s : bladerf_sink_c) :
  exists f s' new,
    on_tag bladeRF n nread t l s = (Val f, s') /\
    dev_calls s' = dev_calls s ++ new /\
    same_members s s' /\
    ((f = Return BLADERF_ERR_INVAL /\ new = [] /\ _in_burst s' = _in_burst s /\
      is_plain t = false /\ (is_sob t = true -> _in_burst s = true))
     \/
     (is_sob t = true /\ _in_burst s = false /\ _in_burst s' = true /\
      new = [] /\ exists l', f = Next l' /\ status l' = status l)
     \/
     (is_plain t = true /\ f = Next l /\ s' = s /\ new = [])
     \/
     (is_eob t = true /\ _in_burst s = true /\
      exists d, is_data_call d = true /\
        ((new = [d] /\ bladeRF (dev_calls s) d <> 0 /\
          f = Return (bladeRF (dev_calls s) d) /\ _in_burst s' = true)
         \/
         (exists tr, is_trailer_call tr = true /\ new = [d; tr] /\
            bladeRF (dev_calls s) d = 0 /\ _in_burst s' = false /\
            ((bladeRF (dev_calls s ++ [d]) tr <> 0 /\
              f = Return (bladeRF (dev_calls s ++ [d]) tr))
             \/
             (bladeRF (dev_calls s ++ [d]) tr = 0 /\
              exists l', f = Next l' /\ status l' = 0)))))).
Proof.
  destruct (tag_cases t) as [Hs|[He|Hp]].
  - destruct (_in_burst s) eqn:Hb.
    + rewrite on_tag_sob_in_burst by assumption.
      eexists _, _, []. rewrite app_nil_r.
      split; [reflexivity|]. split; [reflexivity|].
      split; [repeat split|]. left. repeat split; auto.
      unfold is_plain. now rewrite Hs.
    + rewrite on_tag_sob_idle by assumption.
      eexists _, _, []. rewrite app_nil_r.
      split; [reflexivity|]. split; [reflexivity|].
      split; [repeat split|]. right. left. repeat split; eauto.
  - pose proof (eob_is_not_sob _ He) as Hs.
    assert (Hnp : is_plain t = false).
    { unfold is_plain. rewrite He. now rewrite andb_false_r. }
    destruct (_in_burst s) eqn:Hb.
    + destruct (Z.eq_dec (start_idx l) INVALID_IDX) as [Hi|Hi];
        [|destruct (Z_le_gt_dec (start_idx l) (rel_offset t nread)) as [Hle|Hgt]].
      * rewrite on_tag_eob_invalid by auto.
        eexists _, _, []. rewrite app_nil_r.
        split; [reflexivity|]. split; [reflexivity|].
        split; [repeat split|]. left. repeat split; auto; congruence.
      * rewrite on_tag_eob_valid by assumption. cbv zeta.
        set (d := data_call s (start_idx l) (rel_offset t nread) (meta_flags l)).
        set (tr := trailer_call s (meta_flags l)).
        destruct (Z.eqb_spec (bladeRF (dev_calls s) d) 0) as [Hd|Hd].
        -- eexists _, _, [d; tr]. split; [reflexivity|].
           split; [cbn [dev_calls set_in_burst push_call];
                   now rewrite <- app_assoc|].
           split; [repeat split|]. right. right. right.
           split; [assumption|]. split; [reflexivity|].
           exists d. split; [reflexivity|]. right. exists tr.
           split; [reflexivity|]. split; [reflexivity|].
           split; [assumption|]. split; [reflexivity|].
           destruct (Z.eqb_spec (bladeRF (dev_calls s ++ [d]) tr) 0) as [Ht|Ht].
           ++ right. split; [assumption|]. eexists. split; [reflexivity|].
              exact Ht.
           ++ left. split; [assumption|reflexivity].
        -- eexists _, _, [d]. split; [reflexivity|].
           split; [reflexivity|]. split; [repeat split|].
           right. right. right. split; [assumption|]. split; [reflexivity|].
           exists d. split; [reflexivity|]. left. repeat split; assumption.
      * rewrite on_tag_eob_invalid by auto.
        eexists _, _, []. rewrite app_nil_r.
        split; [reflexivity|]. split; [reflexivity|].
        split; [repeat split|]. left. repeat split; auto; congruence.
    + rewrite on_tag_eob_idle by assumption.
      eexists _, _, []. rewrite app_nil_r.
      split; [reflexivity|]. split; [reflexivity|].
      split; [repeat split|]. left. repeat split; auto; congruence.
  - rewrite on_tag_plain by assumption.
    eexists _, _, []. rewrite app_nil_r.
    split; [reflexivity|]. split; [reflexivity|].
    split; [repeat split|]. right. right. left. repeat split; auto.
Qed.

Lemma last_call_status_app hist new1 new2 st :
  last_call_status bladeRF (hist ++ new1) new2 st ->
  last_call_status bladeRF hist (new1 ++ new2) st.
Proof.
  intros (pre & c & -> & Hst). exists (new1 ++ pre), c.
  split; [now rewrite app_assoc|]. now rewrite app_assoc.
Qed.

Lemma trailers_follow_data_nil hist : trailers_follow_data bladeRF hist [].
Proof. intros [|] ? ? H; discriminate H. Qed.

Lemma trailers_follow_data_app hist new1 new2 :
  trailers_follow_data bladeRF hist new1 ->
  trailers_follow_data bladeRF (hist ++ new1) new2 ->
  trailers_follow_data bladeRF hist (new1 ++ new2).
Proof.
  intros H1 H2 pre c post Heq Htr.
  apply app_eq_app in Heq as [m [[Hl Hr]|[Hl Hr]]].
  - destruct m as [|x m].
    + cbn [app] in Hr.
      destruct (H2 [] c post (eq_sym Hr) Htr) as (pre' & d & Hp & _).
      destruct pre'; discriminate Hp.
    + cbn [app] in Hr. injection Hr as <- Hr.
      apply (H1 pre c m); assumption.
  - subst pre. destruct (H2 m c post Hr Htr) as (pre' & d & -> & Hd & Hst).
    exists (new1 ++ pre'), d. split; [now rewrite app_assoc|].
    split; [assumption|]. now rewrite app_assoc.
Qed.

Lemma data_call_is_no_trailer (c : dev_call) :
  is_data_call c = true -> is_trailer_call c = false.
Proof. destruct c as [[idx|contents] ? ? ?| |]; now cbn. Qed.

Lemma trailers_follow_data_one hist d :
  is_data_call d = true -> trailers_follow_data bladeRF hist [d].
Proof.
  intros Hd [|x pre] c post Heq Htr.
  - injection Heq as <- _. rewrite data_call_is_no_trailer in Htr by assumption.
    discriminate.
  - injection Heq as _ Heq. destruct pre; discriminate Heq.
Qed.

Lemma trailers_follow_data_two hist d tr :
  is_data_call d = true -> bladeRF hist d = 0 ->
  trailers_follow_data bladeRF hist [d; tr].
Proof.
  intros Hd Hst [|x [|y pre]] c post Heq Htr.
  - injection Heq as <- _. rewrite data_call_is_no_trailer in Htr by assumption.
    discriminate.
  - injection Heq as <- _ _. exists [], d. rewrite app_nil_r. auto.
  - injection Heq as _ _ Heq. destruct pre; discriminate Heq.
Qed.

Lemma burst_state_after_cons t tags b :
  burst_state_after (t :: tags) b
  = burst_state_after tags (if is_sob t then true
                            else if is_eob t then false else b).
Proof. reflexivity. Qed.

(** What the loop over the tags can do, from locals with [status = 0]. *)
Lemma foreach_tag_calls (n nread : Z) (tags : list tag_t) :
  forall l s,
    status l = 0 ->
    exists f s' new,
      foreach_tag bladeRF n nread tags l s = (Val f, s') /\
      dev_calls s' = dev_calls s ++ new /\
      same_members s s' /\
      trailers_follow_data bladeRF (dev_calls s) new /\
      match f with
      | Next l' =>
          status l' = 0 /\
          _in_burst s' = burst_state_after tags (_in_burst s) /\
          (new = [] \/ last_call_status bladeRF (dev_calls s) new 0)
      | Return st =>
          st <> 0 /\
          (st = BLADERF_ERR_INVAL \/
           last_call_status bladeRF (dev_calls s) new st)
      end.
Proof.
  induction tags as [|t tags IH]; intros l s Hst.
  - exists (Next l), s, []. rewrite app_nil_r.
    split; [reflexivity|]. split; [reflexivity|].
    split; [apply same_members_refl|].
    split; [apply trailers_follow_data_nil|]. auto.
  - cbn [foreach_tag]. unfold bind.
    destruct (on_tag_shape n nread t l s)
      as (f1 & s1 & new1 & -> & Hcalls1 & Hsame1 & Hcase).
    rewrite burst_state_after_cons.
    assert (Hgo : forall l1,
      f1 = Next l1 -> status l1 = 0 ->
      trailers_follow_data bladeRF (dev_calls s) new1 ->
      (new1 = [] \/ last_call_status bladeRF (dev_calls s) new1 0) ->
      _in_burst s1 = (if is_sob t then true
                      else if is_eob t then false else _in_burst s) ->
      exists f s' new,
        foreach_tag bladeRF n nread tags l1 s1 = (Val f, s') /\
        dev_calls s' = dev_calls s ++ new /\
        same_members s s' /\
        trailers_follow_data bladeRF (dev_calls s) new /\
        match f with
        | Next l' =>
            status l' = 0 /\
            _in_burst s'
            = burst_state_after tags
                (if is_sob t then true
                 else if is_eob t then false else _in_burst s) /\
            (new = [] \/ last_call_status bladeRF (dev_calls s) new 0)
        | Return st =>
            st <> 0 /\
            (st = BLADERF_ERR_INVAL \/
             last_call_status bladeRF (dev_calls s) new st)
        end).
    { intros l1 _ Hst1 Htfd1 Hlast1 Hb1.
      destruct (IH l1 s1 Hst1) as (f & s' & new2 & Hrun & Hcalls & Hsame & Htfd & Hf).
      exists f, s', (new1 ++ new2). split; [exact Hrun|].
      split; [rewrite Hcalls, Hcalls1; now rewrite app_assoc|].
      split; [eapply same_members_trans; eassumption|].
      rewrite Hcalls1 in Htfd, Hf.
      split; [now apply trailers_follow_data_app|].
      destruct f as [st|l'].
      - destruct Hf as [Hnz [Hinv|Hlast]]; (split; [assumption|]).
        + now left.
        + right. now apply last_call_status_app.
      - destruct Hf as (Hst' & Hb & Hlast). rewrite Hb1 in Hb.
        split; [assumption|]. split; [assumption|].
        destruct Hlast as [->|Hlast].
        + rewrite app_nil_r. exact Hlast1.
        + right. now apply last_call_status_app. }
    destruct Hcase
      as [(-> & -> & Hb & Hnp & Hsb)
         |[(Hs & Hb & Hb' & -> & l1 & Hf1 & Hst1)
          |[(Hp & Hf1 & -> & ->)
           |(He & Hb & d & Hd & [(-> & Hnz & -> & Hb')
                                |(tr & Htr & -> & Hz & Hb' &
                                  [(Hnz & ->)|(Hz' & l1 & Hf1 & Hst1)])])]]].
    + exists (Return BLADERF_ERR_INVAL), s1, [].
      split; [reflexivity|]. split; [assumption|]. split; [assumption|].
      split; [apply trailers_follow_data_nil|].
      split; [discriminate|now left].
    + rewrite Hf1. apply (Hgo l1 Hf1 (eq_trans Hst1 Hst)).
      * apply trailers_follow_data_nil.
      * now left.
      * now rewrite Hs.
    + rewrite Hf1. apply (Hgo l Hf1 Hst).
      * apply trailers_follow_data_nil.
      * now left.
      * unfold is_plain in Hp. apply andb_true_iff in Hp as [H1 H2].
        apply negb_true_iff in H1, H2. now rewrite H1, H2.
    + exists (Return (bladeRF (dev_calls s) d)), s1, [d].
      split; [reflexivity|]. split; [assumption|]. split; [assumption|].
      split; [now apply trailers_follow_data_one|].
      split; [assumption|]. right. exists [], d.
      split; [reflexivity|]. now rewrite app_nil_r.
    + exists (Return (bladeRF (dev_calls s ++ [d]) tr)), s1, [d; tr].
      split; [reflexivity|]. split; [assumption|]. split; [assumption|].
      split; [now apply trailers_follow_data_two|].
      split; [assumption|]. right. exists [d], tr. split; reflexivity.
    + rewrite Hf1. apply (Hgo l1 Hf1 Hst1).
      * now apply trailers_follow_data_two.
      * right. exists [d], tr. split; [reflexivity|assumption].
      * rewrite (eob_is_not_sob _ He), He. assumption.
Qed.

Lemma transmit_with_tags_calls (n nread : Z) (tags : list tag_t)
      (s : bladerf_sink_c) :
  exists st s' new,
    transmit_with_tags bladeRF n nread tags s = (Val st, s') /\
    dev_calls s' = dev_calls s ++ new /\
    same_members s s' /\
    trailers_follow_data bladeRF (dev_calls s) new /\
    (st = BLADERF_ERR_INVAL \/ (new = [] /\ st = 0) \/
     last_call_status bladeRF (dev_calls s) new st) /\
    (st = 0 -> _in_burst s' = burst_state_after tags (_in_burst s)).
Proof.
  destruct tags as [|t tags].
  - rewrite transmit_with_tags_nil. destruct (_in_burst s) eqn:Hb.
    + cbv zeta. eexists _, _, [_]. split; [reflexivity|].
      split; [reflexivity|]. split; [repeat split|].
      split; [now apply trailers_follow_data_one|].
      split; [|intros _; exact Hb].
      right. right. eexists [], _. split; [reflexivity|].
      now rewrite app_nil_r.
    + eexists _, _, []. rewrite app_nil_r. split; [reflexivity|].
      split; [reflexivity|]. split; [repeat split|].
      split; [apply trailers_follow_data_nil|].
      split; [|intros _; exact Hb]. right. now left.
  - rewrite transmit_with_tags_cons.
    destruct (foreach_tag_calls n nread (t :: tags) (init_locals n) s eq_refl)
      as (f & s1 & new & -> & Hcalls & Hsame & Htfd & Hf).
    destruct f as [st|l'].
    + destruct Hf as [Hnz Hst]. exists st, s1, new.
      split; [reflexivity|]. split; [assumption|]. split; [assumption|].
      split; [assumption|]. split; [|intros H0; contradiction].
      destruct Hst; auto.
    + destruct Hf as (Hst & Hb & Hlast).
      unfold after_tags, bladerf_sync_tx, call_dev, bind, gets, ret.
      cbn beta iota. destruct (_in_burst s1) eqn:Hb1.
      * eexists _, _, (new ++ [_]). split; [reflexivity|].
        split; [cbn [dev_calls push_call]; rewrite Hcalls;
                now rewrite <- app_assoc|].
        split; [exact Hsame|].
        split; [apply trailers_follow_data_app;
                [assumption|now apply trailers_follow_data_one]|].
        split; [|intros _; cbn [_in_burst push_call]; congruence].
        right. right. eexists new, _. split; [reflexivity|].
        now rewrite Hcalls.
      * exists (status l'), s1, new. split; [reflexivity|].
        split; [assumption|]. split; [assumption|]. split; [assumption|].
        split; [|intros _; congruence].
        rewrite Hst. destruct Hlast as [->|Hlast]; auto.
Qed.

(** X1.  A call never throws, and what it returns is the answer of the
    device to the last call it made: [BLADERF_ERR_INVAL] marks a protocol
    error, 0 with no call made a block that needed no transmit, and any
    other value is the status of the last [bladerf_sync_tx]. *)
Theorem transmit_with_tags_returns_last_status
    (n nread : Z) (tags : list tag_t) (s : bladerf_sink_c) :
  exists st s' new,
    transmit_with_tags bladeRF n nread tags s = (Val st, s') /\
    dev_calls s' = dev_calls s ++ new /\
    (st = BLADERF_ERR_INVAL \/ (new = [] /\ st = 0) \/
     exists pre c, new = pre ++ [c] /\ bladeRF (dev_calls s ++ pre) c = st).
Proof.
  destruct (transmit_with_tags_calls n nread tags s)
    as (st & s' & new & Hrun & Hcalls & _ & _ & Hst & _).
  exists st, s', new. auto.
Qed.

(** X2.  In the calls of one invocation every trailer of zero samples
    comes directly after a data call from the conversion buffer that
    returned 0: the burst-end flush is never sent on its own, nor after a
    failed data transmit. *)
Theorem transmit_with_tags_trailer_follows_data
    (n nread : Z) (tags : list tag_t) (s : bladerf_sink_c) :
  exists st s' new,
    transmit_with_tags bladeRF n nread tags s = (Val st, s') /\
    dev_calls s' = dev_calls s ++ new /\
    forall pre c post,
      new = pre ++ c :: post -> is_trailer_call c = true ->
      exists pre' d,
        pre = pre' ++ [d] /\ is_data_call d = true /\
        bladeRF (dev_calls s ++ pre') d = 0.
Proof.
  destruct (transmit_with_tags_calls n nread tags s)
    as (st & s' & new & Hrun & Hcalls & _ & Htfd & _).
  exists st, s', new. auto.
Qed.

(** X3.  A call touches only the burst flag, the device trace and
    [std::cerr]: the metadata switch, the failure counter, the buffer size
    and the stream parameters are as before, whatever the tags and the
    device do. *)
Theorem transmit_with_tags_keeps_members
    (n nread : Z) (tags : list tag_t) (s : bladerf_sink_c) :
  same_members s (snd (transmit_with_tags bladeRF n nread tags s)).
Proof.
  destruct (transmit_with_tags_calls n nread tags s)
    as (st & s' & new & Hrun & _ & Hsame & _).
  now rewrite Hrun.
Qed.

(** X4.  When a call returns 0 the burst flag is the one the tags
    dictate: it is set iff the last start-of-burst or end-of-burst tag of
    the window is a start of burst, and unchanged without such a tag. *)
Theorem transmit_with_tags_success_state
    (n nread : Z) (tags : list tag_t) (s s' : bladerf_sink_c) :
  transmit_with_tags bladeRF n nread tags s = (Val 0, s') ->
  _in_burst s' = burst_state_after tags (_in_burst s).
Proof.
  intros Hrun.
  destruct (transmit_with_tags_calls n nread tags s)
    as (st & s1 & new & Hrun' & _ & _ & _ & _ & Hstate).
  rewrite Hrun in Hrun'. injection Hrun' as <- <-. now apply Hstate.
Qed.

Lemma foreach_tag_idle_without_sob (n nread : Z) (tags : list tag_t) :
  forall l s,
    _in_burst s = false -> existsb is_sob tags = false ->
    exists s',
      foreach_tag bladeRF n nread tags l s
      = (Val (if existsb is_eob tags then Return BLADERF_ERR_INVAL
              else Next l), s') /\
      dev_calls s' = dev_calls s /\ _in_burst s' = false.
Proof.
  induction tags as [|t tags IH]; intros l s Hb Hno.
  - exists s. repeat split; assumption.
  - cbn [existsb] in *. apply orb_false_iff in Hno as [Hs Hno].
    cbn [foreach_tag]. unfold bind. destruct (is_eob t) eqn:He.
    + rewrite on_tag_eob_idle by assumption. cbn [orb].
      eexists. split; [reflexivity|]. split; [reflexivity|]. exact Hb.
    + rewrite on_tag_plain by (unfold is_plain; now rewrite Hs, He).
      cbn [orb]. now apply IH.
Qed.

(** X5.  Samples outside a burst are never sent: a call made while Idle
    whose window holds no start-of-burst tag makes no call on the device,
    whatever other tags it holds; it returns [BLADERF_ERR_INVAL] if an
    end-of-burst tag is among them and 0 otherwise, and stays Idle. *)
Theorem transmit_with_tags_idle_sends_nothing
    (n nread : Z) (tags : list tag_t) (s : bladerf_sink_c) :
  _in_burst s = false ->
  existsb is_sob tags = false ->
  exists s',
    transmit_with_tags bladeRF n nread tags s
    = (Val (if existsb is_eob tags then BLADERF_ERR_INVAL else 0), s') /\
    dev_calls s' = dev_calls s /\
    _in_burst s' = false.
Proof.
  intros Hb Hno. destruct tags as [|t tags].
  - rewrite transmit_with_tags_nil, Hb. eexists. repeat split. exact Hb.
  - rewrite transmit_with_tags_cons.
    destruct (foreach_tag_idle_without_sob n nread (t :: tags)
                (init_locals n) s Hb Hno) as (s' & -> & Hcalls & Hb').
    exists s'. split; [|split; assumption].
    destruct (existsb is_eob (t :: tags)); [reflexivity|].
    unfold after_tags, bind, gets, ret. cbn beta iota. now rewrite Hb'.
Qed.

End EngineCalls.

(** ** Work, start and stop *)

Section WorkCalls.

Variable bladeRF : list dev_call -> dev_call -> Z.
Variable realloc_ok : Z -> bool.
Variable MAX_CONSECUTIVE_FAILURES : Z.

Lemma work_account_keeps (r n : Z) (s : bladerf_sink_c) :
  exists v s',
    work_account MAX_CONSECUTIVE_FAILURES r n s = (Val v, s') /\
    dev_calls s' = dev_calls s /\
    _in_burst s' = _in_burst s /\
    _conv_buf_size s' = _conv_buf_size s /\
    (v = n \/ (v = WORK_DONE /\ r <> 0)).
Proof.
  rewrite work_account_eq. cbv zeta.
  destruct (Z.eqb_spec r 0) as [Hr|Hr].
  - eexists _, _. split; [reflexivity|]. repeat split. now left.
  - destruct (MAX_CONSECUTIVE_FAILURES <=? _);
      eexists _, _; (split; [reflexivity|]); repeat split; auto.
Qed.

(** X6.  Without metadata mode [work] ignores the tags and the burst
    state: it makes exactly one [bladerf_sync_tx] of the whole block with
    a NULL metadata pointer and hands its status to the failure
    accounting. *)
Theorem work_without_metadata_sends_whole_block
    (n nread : Z) (tags : list tag_t) (s : bladerf_sink_c) :
  _use_metadata s = false ->
  n <= _conv_buf_size s \/ realloc_ok (n * 2 * 2) = true ->
  let whole := sync_tx (conv_buf_at 0) n None (_stream_timeout_ms s) in
  exists s1 v s2,
    work_transmit bladeRF realloc_ok n nread tags s
    = (Val (bladeRF (dev_calls s) whole), s1) /\
    work bladeRF realloc_ok MAX_CONSECUTIVE_FAILURES n nread tags s
    = (Val v, s2) /\
    dev_calls s2 = dev_calls s ++ [whole] /\
    _in_burst s2 = _in_burst s.
Proof.
  intros Hmeta Hbuf whole.
  assert (Ht : exists s1,
    work_transmit bladeRF realloc_ok n nread tags s
    = (Val (bladeRF (dev_calls s) whole), s1) /\
    dev_calls s1 = dev_calls s ++ [whole] /\ _in_burst s1 = _in_burst s).
  { unfold work_transmit, bladerf_sync_tx, call_dev, bind, gets, modify,
      throw, ret. cbn beta iota.
    destruct (n >? _conv_buf_size s) eqn:Hgt.
    - destruct Hbuf as [Hle| ->]; [apply Z.gtb_lt in Hgt; lia|].
      cbn [_use_metadata set_conv_buf_size]. rewrite Hmeta.
      eexists. split; [reflexivity|]. split; reflexivity.
    - rewrite Hmeta. eexists. split; [reflexivity|]. split; reflexivity. }
  destruct Ht as (s1 & Ht & Hcalls & Hb).
  destruct (work_account_keeps (bladeRF (dev_calls s) whole) n s1)
    as (v & s2 & Ha & Hc2 & Hb2 & _).
  exists s1, v, s2. split; [exact Ht|]. split.
  - unfold work, bind. rewrite Ht. exact Ha.
  - split; congruence.
Qed.

(** X7.  [_conv_buf_size] never shrinks: a [work] call that returns leaves
    it at the larger of its old value and [noutput_items].  The call
    throws exactly when the block is larger than the buffer and [realloc]
    fails; nothing has been sent then, but [_conv_buf_size] already holds
    the new size. *)
Theorem work_buffer_size
    (n nread : Z) (tags : list tag_t) (s : bladerf_sink_c) :
  if (n >? _conv_buf_size s) && negb (realloc_ok (n * 2 * 2)) then
    work bladeRF realloc_ok MAX_CONSECUTIVE_FAILURES n nread tags s
    = (Exn "workFailed to realloc _conv_buf", set_conv_buf_size n s)
  else
    exists v s',
      work bladeRF realloc_ok MAX_CONSECUTIVE_FAILURES n nread tags s
      = (Val v, s') /\
      _conv_buf_size s' = Z.max (_conv_buf_size s) n.
Proof.
  unfold work. unfold bind at 1.
  assert (Hsend : forall s0,
    exists r s1,
      (if _use_metadata s0
       then transmit_with_tags bladeRF n nread tags
       else bladerf_sync_tx bladeRF (conv_buf_at 0) n None) s0 = (Val r, s1)
      /\ _conv_buf_size s1 = _conv_buf_size s0).
  { intros s0. destruct (_use_metadata s0).
    - destruct (transmit_with_tags_calls bladeRF n nread tags s0)
        as (st & s1 & new & Hrun & _ & Hsame & _).
      exists st, s1. split; [exact Hrun|]. apply Hsame.
    - eexists _, _. split; reflexivity. }
  unfold work_transmit, bind, gets, modify, throw, ret. cbn beta iota.
  destruct (n >? _conv_buf_size s) eqn:Hgt; cbn [andb].
  - destruct (realloc_ok (n * 2 * 2)); cbn [negb]; [|reflexivity].
    cbn [_use_metadata set_conv_buf_size].
    destruct (Hsend (set_conv_buf_size n s)) as (r & s1 & Hrun & Hsize).
    cbn [_use_metadata set_conv_buf_size] in Hrun. rewrite Hrun.
    destruct (work_account_keeps r n s1) as (v & s2 & Ha & _ & _ & Hs2 & _).
    exists v, s2. split; [exact Ha|]. rewrite Hs2, Hsize.
    cbn [_conv_buf_size set_conv_buf_size]. apply Z.gtb_lt in Hgt. lia.
  - destruct (Hsend s) as (r & s1 & Hrun & Hsize). rewrite Hrun.
    destruct (work_account_keeps r n s1) as (v & s2 & Ha & _ & _ & Hs2 & _).
    exists v, s2. split; [exact Ha|]. rewrite Hs2, Hsize.
    rewrite Z.gtb_ltb in Hgt. apply Z.ltb_ge in Hgt. lia.
Qed.

Lemma start_stop_shape (s : bladerf_sink_c) :
  let format := if _use_metadata s then BLADERF_FORMAT_SC16_Q11_META
                else BLADERF_FORMAT_SC16_Q11 in
  let config := sync_config BLADERF_MODULE_TX format (_num_buffers s)
                  (_samples_per_buffer s) (_num_transfers s)
                  (_stream_timeout_ms s) in
  let enable := enable_module BLADERF_MODULE_TX true in
  let disable := enable_module BLADERF_MODULE_TX false in
  let r1 := bladeRF (dev_calls s) config in
  let r2 := bladeRF (dev_calls s ++ [config]) enable in
  (exists s',
     start bladeRF s = (Val ((r1 =? 0) && (r2 =? 0)), s') /\
     dev_calls s'
     = dev_calls s ++ (if r1 =? 0 then [config; enable] else [config]) /\
     same_members s s') /\
  (exists s',
     stop bladeRF s = (Val (bladeRF (dev_calls s) disable =? 0), s') /\
     dev_calls s' = dev_calls s ++ [disable] /\
     _in_burst s' = _in_burst s /\
     same_members s s').
Proof.
  cbv zeta. split.
  - unfold start, bladerf_common_start, call_dev, say, bind, gets, modify, ret.
    cbn beta iota.
    cbn [_use_metadata _num_buffers _samples_per_buffer _num_transfers
         _stream_timeout_ms dev_calls set_in_burst push_call].
    destruct (bladeRF (dev_calls s) _ =? 0); cbn [negb andb].
    + cbn [dev_calls push_call set_in_burst].
      destruct (bladeRF (dev_calls s ++ _) _ =? 0); cbn [negb];
        eexists; (split; [reflexivity|]);
        cbn [dev_calls push_call push_cerr set_in_burst];
        rewrite <- ?app_assoc; repeat split.
    + eexists. split; [reflexivity|]. repeat split.
  - unfold stop, bladerf_common_stop, call_dev, say, bind, gets, modify, ret.
    cbn beta iota.
    destruct (bladeRF (dev_calls s) _ =? 0); cbn [negb];
      eexists; (split; [reflexivity|]); repeat split.
Qed.


End WorkCalls.

(** ** More on the buffer configuration *)

Section InitMore.

Variable lexical_cast_size_t : string -> option Z.
Variable lexical_cast_unsigned_int : string -> option Z.

Lemma init_read_step (k : string) (cast : string -> option Z)
      (store : Z -> bladerf_sink_c -> bladerf_sink_c) (d : Z)
      (rest : M bladerf_sink_c unit) dict s :
  (forall z s0, store z (store d s0) = store z s0) ->
  (modify (store d) ;;
   (if negb (dict_count dict k =? 0)
    then v <- lexical_cast cast (dict_get dict k) ;; modify (store v)
    else ret tt) ;;
   rest) s
  = if cast_fails cast dict k
    then (Exn "bad lexical cast: source type value could not be interpreted as target",
          store d s)
    else rest (store (match arg cast dict k with Some v => v | None => d end) s).
Proof.
  intros Hstore. unfold bind at 1. unfold modify at 1. cbn beta iota.
  unfold bind at 1. rewrite init_read_arg. unfold arg, cast_fails.
  destruct (dict_find dict k) as [str|]; [|reflexivity].
  destruct (cast str); [|reflexivity]. now rewrite Hstore.
Qed.

Ltac next_if_goal :=
  match goal with
  | |- context [if ?c then _ else _] => destruct c eqn:?
  end;
  cbn [_num_buffers _samples_per_buffer _num_transfers _stream_timeout_ms
       set_num_buffers set_samples_per_buffer set_num_transfers
       set_stream_timeout_ms set_use_metadata push_cerr].

(** The part of [init_stream_config] after the arguments are read: it
    never throws, makes no device call, and leaves the members in the
    ranges the device needs. *)
Lemma init_stream_config_result (dict : dict_t) (s : bladerf_sink_c) :
  if cast_fails lexical_cast_size_t dict "buffers"
     || cast_fails lexical_cast_size_t dict "buflen"
     || cast_fails lexical_cast_size_t dict "transfers"
     || cast_fails lexical_cast_unsigned_int dict "stream_timeout_ms"
  then exists what s',
         init_stream_config lexical_cast_size_t lexical_cast_unsigned_int
                            dict s = (Exn what, s') /\
         dev_calls s' = dev_calls s
  else exists s',
         init_stream_config lexical_cast_size_t lexical_cast_unsigned_int
                            dict s = (Val tt, s') /\
         dev_calls s' = dev_calls s /\
         _in_burst s' = _in_burst s /\
         _consecutive_failures s' = _consecutive_failures s /\
         _conv_buf_size s' = _conv_buf_size s /\
         _use_metadata s' = negb (dict_count dict "enable_metadata" =? 0) /\
         ((forall str z, lexical_cast_size_t str = Some z -> size_t_range z) ->
          2 <= _num_buffers s' /\
          positive_multiple_of_1024 (_samples_per_buffer s') = true /\
          1 <= _num_transfers s' < _num_buffers s').
Proof.
  unfold init_stream_config.
  rewrite init_read_step by reflexivity.
  destruct (cast_fails lexical_cast_size_t dict "buffers"); cbn [orb];
    [eexists _, _; split; reflexivity|].
  rewrite init_read_step by reflexivity.
  destruct (cast_fails lexical_cast_size_t dict "buflen"); cbn [orb];
    [eexists _, _; split; reflexivity|].
  rewrite init_read_step by reflexivity.
  destruct (cast_fails lexical_cast_size_t dict "transfers"); cbn [orb];
    [eexists _, _; split; reflexivity|].
  rewrite init_read_step by reflexivity.
  destruct (cast_fails lexical_cast_unsigned_int dict "stream_timeout_ms");
    [eexists _, _; split; reflexivity|].
  assert (Hb : (forall str z, lexical_cast_size_t str = Some z ->
                              size_t_range z) ->
               0 <= match arg lexical_cast_size_t dict "buffers" with
                    | Some v => v | None => 0 end).
  { intros Hrange. unfold arg.
    destruct (dict_find dict "buffers") as [v|]; [|lia].
    destruct (lexical_cast_size_t v) as [z|] eqn:Hz; [|lia].
    apply Hrange in Hz. unfold size_t_range in Hz. lia. }
  assert (Ht : (forall str z, lexical_cast_size_t str = Some z ->
                              size_t_range z) ->
               0 <= match arg lexical_cast_size_t dict "transfers" with
                    | Some v => v | None => 0 end).
  { intros Hrange. unfold arg.
    destruct (dict_find dict "transfers") as [v|]; [|lia].
    destruct (lexical_cast_size_t v) as [z|] eqn:Hz; [|lia].
    apply Hrange in Hz. unfold size_t_range in Hz. lia. }
  generalize dependent (match arg lexical_cast_size_t dict "buffers" with
                        | Some v => v | None => 0 end).
  generalize dependent (match arg lexical_cast_size_t dict "transfers" with
                        | Some v => v | None => 0 end).
  generalize (match arg lexical_cast_size_t dict "buflen" with
              | Some v => v | None => 0 end).
  generalize (match arg lexical_cast_unsigned_int dict "stream_timeout_ms" with
              | Some v => v | None => 3000 end).
  intros to spb nt Hnt nb Hnb.
  unfold say. unfold bind, modify, gets, ret. cbn beta iota.
  unfold NUM_BUFFERS, NUM_SAMPLES_PER_BUFFER.
  change (4 * 1024) with 4096.
  cbn [_num_buffers _samples_per_buffer _num_transfers _stream_timeout_ms
       set_num_buffers set_samples_per_buffer set_num_transfers
       set_stream_timeout_ms set_use_metadata push_cerr].
  repeat next_if_goal.
  all: eexists; (split; [reflexivity|]).
  all: cbn [_num_buffers _samples_per_buffer _num_transfers
            _stream_timeout_ms set_num_buffers set_samples_per_buffer
            set_num_transfers set_stream_timeout_ms set_use_metadata
            push_cerr cerr dev_calls _in_burst _consecutive_failures
            _conv_buf_size _use_metadata].
  all: rewrite ?multiple_of_1024 in *.
  all: repeat match goal with
              | H : negb _ = false |- _ => apply negb_false_iff in H
              | H : negb _ = true |- _ => apply negb_true_iff in H
              end.
  all: repeat split; try reflexivity.
  all: try (intros Hrange; specialize (Hnt Hrange); specialize (Hnb Hrange)).
  all: repeat split; try reflexivity; try assumption.
  all: rewrite ?Z.geb_leb, ?Z.gtb_ltb in *.
  all: Z.div_mod_to_equations; lia.
Qed.

(** X9.  The buffer configuration throws exactly when one of the four
    numeric arguments is present and cannot be cast; a missing argument
    never makes it fail, and no call is made on the device either way. *)
Theorem init_stream_config_throws_on_bad_cast
    (dict : dict_t) (s : bladerf_sink_c) :
  ((exists s',
      init_stream_config lexical_cast_size_t lexical_cast_unsigned_int dict s
      = (Val tt, s'))
   <->
   (cast_fails lexical_cast_size_t dict "buffers" = false /\
    cast_fails lexical_cast_size_t dict "buflen" = false /\
    cast_fails lexical_cast_size_t dict "transfers" = false /\
    cast_fails lexical_cast_unsigned_int dict "stream_timeout_ms" = false))
  /\
  dev_calls
    (snd (init_stream_config lexical_cast_size_t lexical_cast_unsigned_int
                             dict s))
  = dev_calls s.
Proof.
  pose proof (init_stream_config_result dict s) as H.
  destruct (cast_fails lexical_cast_size_t dict "buffers"
            || cast_fails lexical_cast_size_t dict "buflen"
            || cast_fails lexical_cast_size_t dict "transfers"
            || cast_fails lexical_cast_unsigned_int dict "stream_timeout_ms")
    eqn:Hany.
  - destruct H as (what & s' & Hrun & Hcalls). rewrite Hrun. split; [|exact Hcalls].
    split.
    + intros (s1 & H1). discriminate H1.
    + intros (H1 & H2 & H3 & H4). rewrite H1, H2, H3, H4 in Hany.
      discriminate Hany.
  - destruct H as (s' & Hrun & Hcalls & _). rewrite Hrun. split; [|exact Hcalls].
    split; [|eauto]. intros _.
    apply orb_false_iff in Hany as [Hany H4].
    apply orb_false_iff in Hany as [Hany H3].
    apply orb_false_iff in Hany as [H1 H2]. auto.
Qed.

(** X10.  Metadata mode is switched by the presence of the
    [enable_metadata] argument alone: whatever its value, also
    [enable_metadata=0], the sink is in metadata mode, and it is not when
    the argument is missing. *)
Theorem init_metadata_is_presence_of_key
    (dict : dict_t) (s s' : bladerf_sink_c) :
  init_stream_config lexical_cast_size_t lexical_cast_unsigned_int dict s
  = (Val tt, s') ->
  _use_metadata s'
  = match dict_find dict "enable_metadata" with
    | Some _ => true
    | None => false
    end.
Proof.
  intros Hrun. pose proof (init_stream_config_result dict s) as H.
  destruct (cast_fails lexical_cast_size_t dict "buffers"
            || cast_fails lexical_cast_size_t dict "buflen"
            || cast_fails lexical_cast_size_t dict "transfers"
            || cast_fails lexical_cast_unsigned_int dict "stream_timeout_ms").
  - destruct H as (what & s1 & H1 & _). rewrite Hrun in H1. discriminate H1.
  - destruct H as (s1 & H1 & _ & _ & _ & _ & Hmeta & _).
    rewrite Hrun in H1. injection H1 as <-. rewrite Hmeta.
    unfold dict_count. now destruct (dict_find dict "enable_metadata").
Qed.


End InitMore.

(** ** More on the device registry *)

Section RegistryMore.

Variable devinfo : Type.
Variable bladerf_get_devinfo_from_str : string -> option devinfo.
Variable bladerf_devinfo_matches : devinfo -> devinfo -> bool.
Variable probe : devinfo -> list (raw_dev * devinfo) -> option devinfo.

Local Abbreviation registry := (registry devinfo).
Local Abbreviation cached := (cached_match bladerf_devinfo_matches).
Local Abbreviation open_ :=
  (open bladerf_get_devinfo_from_str bladerf_devinfo_matches probe).

Lemma open_unresolved (r : registry) name :
  registry_ok r ->
  bladerf_get_devinfo_from_str name = None ->
  exists what r1, open_ name r = (Exn what, r1) /\ locked_and_unlocked r r1.
Proof.
  intros (Hm & _) Hfrom. unfold open, with_lock. rewrite Hm, Hfrom.
  unfold throw. eexists _, _. split; [reflexivity|].
  repeat split. cbn [trace push_event set_mutex]. now rewrite <- app_assoc.
Qed.

Lemma open_not_found (r : registry) name info :
  registry_ok r ->
  bladerf_get_devinfo_from_str name = Some info ->
  find (cached info r) (_devs r) = None ->
  probe info (opened r) = None ->
  exists what r1, open_ name r = (Exn what, r1) /\ locked_and_unlocked r r1.
Proof.
  intros (Hm & Hent & _) Hfrom Hfind Hprobe.
  unfold open, with_lock. rewrite Hm, Hfrom.
  unfold get_cached_device. unfold bind at 1. unfold bind at 1.
  unfold gets at 1. rewrite get_cached_device_from_spec by exact Hent.
  change (find (cached info ?r0) (_devs ?r0))
    with (find (cached info r) (_devs r)).
  rewrite Hfind. unfold bind at 1. unfold bladerf_open_with_devinfo.
  cbn [opened push_event set_mutex]. rewrite Hprobe.
  unfold throw. eexists _, _. split; [reflexivity|].
  repeat split. cbn [trace push_event set_mutex]. now rewrite <- app_assoc.
Qed.

(** Every outcome of [open] on a registry at rest. *)
Lemma open_outcomes (r : registry) name :
  registry_ok r ->
  exists res r1,
    open_ name r = (res, r1) /\
    ((exists what, res = Exn what /\ locked_and_unlocked r r1 /\
        (bladerf_get_devinfo_from_str name = None \/
         exists info, bladerf_get_devinfo_from_str name = Some info /\
                      find (cached info r) (_devs r) = None /\
                      probe info (opened r) = None))
     \/
     (exists info h,
        bladerf_get_devinfo_from_str name = Some info /\
        res = Val (Some h) /\
        find (cached info r) (_devs r) = Some h /\
        _devs r1 = _devs r /\
        (forall x, use_count r1 x
                   = if Nat.eqb x h then S (use_count r h) else use_count r x) /\
        opened r1 = opened r /\
        next_handle r1 = next_handle r /\
        _devs_mutex r1 = false /\
        trace r1 = trace r ++ [mutex_lock; mutex_unlock])
     \/
     (exists info found,
        bladerf_get_devinfo_from_str name = Some info /\
        res = Val (Some (next_handle r)) /\
        find (cached info r) (_devs r) = None /\
        probe info (opened r) = Some found /\
        _devs r1 = _devs r ++ [next_handle r] /\
        (forall x, use_count r1 x
                   = if Nat.eqb x (next_handle r) then 1%nat
                     else use_count r x) /\
        opened r1 = opened r ++ [(next_handle r, found)] /\
        next_handle r1 = S (next_handle r) /\
        _devs_mutex r1 = false /\
        trace r1 = trace r ++ [mutex_lock; native_open (next_handle r);
                               mutex_unlock])).
Proof.
  intros Hok.
  destruct (bladerf_get_devinfo_from_str name) as [info|] eqn:Hfrom.
  - destruct (find (cached info r) (_devs r)) as [h|] eqn:Hfind.
    + destruct (open_cached _ _ _ probe r name info h Hok Hfrom Hfind)
        as (r1 & Ho & Hfacts).
      exists (Val (Some h)), r1. split; [exact Ho|].
      right. left. exists info, h. auto.
    + destruct (probe info (opened r)) as [found|] eqn:Hprobe.
      * destruct (open_new _ _ _ probe r name info found Hok Hfrom Hfind Hprobe)
          as (r1 & Ho & Hfacts).
        exists (Val (Some (next_handle r))), r1. split; [exact Ho|].
        right. right. exists info, found. auto.
      * destruct (open_not_found r name info Hok Hfrom Hfind Hprobe)
          as (what & r1 & Ho & Hfacts).
        exists (Exn what), r1. split; [exact Ho|]. left. exists what.
        split; [reflexivity|]. split; [exact Hfacts|]. right. eauto.
  - destruct (open_unresolved r name Hok Hfrom) as (what & r1 & Ho & Hfacts).
    exists (Exn what), r1. split; [exact Ho|]. left. exists what. auto.
Qed.

Lemma open_keeps_ok (r : registry) name :
  registry_ok r -> registry_ok (snd (open_ name r)).
Proof.
  intros Hok. pose proof Hok as (Hm & Hent & Hfresh).
  destruct (open_outcomes r name Hok) as (res & r1 & -> & Hcase).
  cbn [snd].
  destruct Hcase
    as [(what & _ & (Hd & Hc & Hop & Hn & Hmu & _) & _)
       |[(info & h & _ & _ & Hfind & Hd & Hc & Hop & Hn & Hmu & _)
        |(info & found & _ & _ & _ & _ & Hd & Hc & Hop & Hn & Hmu & _)]].
  - split; [exact Hmu|]. split.
    + intros d Hdin. rewrite Hd in Hdin. rewrite Hc, Hop. now apply Hent.
    + intros d Hdn. rewrite Hn in Hdn. rewrite Hc, Hop. now apply Hfresh.
  - pose proof (find_some _ _ Hfind) as [Hin _].
    split; [exact Hmu|]. split.
    + intros d Hdin. rewrite Hd in Hdin. rewrite Hop.
      destruct (Hent d Hdin) as [Hpos Hi]. split; [|exact Hi].
      rewrite Hc. destruct (Nat.eqb d h); lia.
    + intros d Hdn. rewrite Hn in Hdn. rewrite Hop.
      destruct (Hfresh d Hdn) as [Hz Hnone]. split; [|exact Hnone].
      rewrite Hc. destruct (Nat.eqb d h) eqn:Hdh; [|exact Hz].
      apply Nat.eqb_eq in Hdh. subst d.
      destruct (Hent h Hin) as [Hpos _]. lia.
  - set (h := next_handle r) in *.
    destruct (Hfresh h (Nat.le_refl _)) as [Hz Hnone].
    split; [exact Hmu|]. split.
    + intros d Hdin. rewrite Hd in Hdin. rewrite Hop, find_conn_app, Hc.
      apply in_app_or in Hdin as [Hdin|[<-|[]]].
      * destruct (Hent d Hdin) as [Hpos [i Hi]]. rewrite Hi.
        split; [|eauto]. destruct (Nat.eqb d h); lia.
      * rewrite Nat.eqb_refl, Hnone. cbn [find_conn]. rewrite Nat.eqb_refl.
        split; [lia|eauto].
    + intros d Hdn. rewrite Hn in Hdn. rewrite Hop, find_conn_app, Hc.
      destruct (Hfresh d ltac:(subst h; lia)) as [Hzd Hnd].
      rewrite Hnd. cbn [find_conn].
      replace (Nat.eqb h d) with false by (symmetry; apply Nat.eqb_neq; lia).
      replace (Nat.eqb d h) with false by (symmetry; apply Nat.eqb_neq; lia).
      split; [exact Hzd|reflexivity].
Qed.

(** Every outcome of dropping a reference, on a registry at rest. *)
Lemma release_outcomes (r : registry) (h : raw_dev) :
  _devs_mutex r = false ->
  exists r',
    sptr_release (Some h) r = (Val tt, r') /\
    _devs_mutex r' = false /\
    next_handle r' = next_handle r /\
    (forall x, use_count r' x
               = if Nat.eqb x h then Nat.pred (use_count r h)
                 else use_count r x) /\
    if Nat.eqb (use_count r h) 1 then
      _devs r' = filter (fun d => negb (expired r' d)) (_devs r) /\
      opened r' = filter (fun c => negb (Nat.eqb (fst c) h)) (opened r) /\
      trace r' = trace r ++ [mutex_lock; native_close h; mutex_unlock]
    else
      _devs r' = _devs r /\ opened r' = opened r /\ trace r' = trace r.
Proof.
  intros Hm. unfold sptr_release. unfold bind at 1. unfold gets at 1.
  destruct (use_count r h) as [|[|c]] eqn:Hc.
  - exists r. split; [reflexivity|]. split; [assumption|].
    split; [reflexivity|]. cbn [Nat.eqb Nat.pred]. split; [|auto].
    intros x. destruct (Nat.eqb x h) eqn:Hx; [|reflexivity].
    apply Nat.eqb_eq in Hx. now subst x.
  - unfold bind at 1. unfold modify at 1. cbn [Nat.eqb].
    unfold close, with_lock. cbn [_devs_mutex set_use_count]. rewrite Hm.
    unfold bladerf_close, bind, modify. cbn beta iota.
    eexists. split; [reflexivity|].
    cbn [_devs use_count opened next_handle _devs_mutex trace push_event
         set_mutex set_use_count set_devs set_opened Nat.pred].
    repeat split. rewrite <- !app_assoc. reflexivity.
  - unfold bind, modify, ret. cbn [Nat.eqb].
    eexists. split; [reflexivity|].
    cbn [_devs use_count opened next_handle _devs_mutex trace
         set_use_count Nat.pred].
    repeat split. assumption.
Qed.

Lemma release_keeps_ok (r : registry) (p : bladerf_sptr) :
  registry_ok r -> registry_ok (snd (sptr_release p r)).
Proof.
  intros Hok. destruct p as [h|]; [|exact Hok].
  pose proof Hok as (Hm & Hent & Hfresh).
  destruct (release_outcomes r h Hm) as (r' & -> & Hmu & Hn & Hc & Hcase).
  cbn [snd]. split; [exact Hmu|].
  assert (Hfresh' : forall d, (next_handle r' <= d)%nat ->
                              use_count r' d = 0%nat).
  { intros d Hd. rewrite Hn in Hd. destruct (Hfresh d Hd) as [Hz _].
    rewrite Hc. destruct (Nat.eqb d h) eqn:Hdh; [|exact Hz].
    apply Nat.eqb_eq in Hdh. subst d. now rewrite Hz. }
  destruct (Nat.eqb (use_count r h) 1) eqn:Hone.
  - destruct Hcase as (Hd & Hop & _). apply Nat.eqb_eq in Hone. split.
    + intros d Hdin. rewrite Hd in Hdin.
      apply filter_In in Hdin as [Hdin He]. apply negb_true_iff in He.
      unfold expired in He. apply Nat.eqb_neq in He. split; [lia|].
      rewrite Hop, find_conn_filter.
      destruct (Nat.eqb d h) eqn:Hdh.
      * apply Nat.eqb_eq in Hdh. subst d. rewrite Hc, Nat.eqb_refl, Hone in He.
        now contradiction He.
      * apply (Hent d Hdin).
    + intros d Hdn. split; [now apply Hfresh'|].
      rewrite Hn in Hdn. rewrite Hop, find_conn_filter.
      destruct (Nat.eqb d h); [reflexivity|]. now apply Hfresh.
  - destruct Hcase as (Hd & Hop & _). apply Nat.eqb_neq in Hone. split.
    + intros d Hdin. rewrite Hd in Hdin. rewrite Hop.
      destruct (Hent d Hdin) as [Hpos Hi]. split; [|exact Hi].
      rewrite Hc. destruct (Nat.eqb d h) eqn:Hdh; [|exact Hpos].
      apply Nat.eqb_eq in Hdh. subst d. lia.
    + intros d Hdn. split; [now apply Hfresh'|].
      rewrite Hn in Hdn. rewrite Hop. now apply Hfresh.
Qed.

(** X12.  The registry at rest stays at rest: after any [open], also one
    that throws, and after any release of a reference, the mutex is free,
    no entry of [_devs] is expired and every entry is an open
    connection. *)
Theorem registry_invariant_is_kept
    (r : registry) (name : string) (p : bladerf_sptr) :
  registry_ok r ->
  registry_ok (snd (open_ name r)) /\ registry_ok (snd (sptr_release p r)).
Proof.
  intros Hok. split; [now apply open_keeps_ok|now apply release_keeps_ok].
Qed.


(** X14.  Dropping a reference that is not the last one only lowers the
    strong count: no lock is taken, [bladerf_close] is not called and the
    entry stays in [_devs]. *)
Theorem release_of_shared_handle_keeps_connection
    (r : registry) (h : raw_dev) (c : nat) :
  _devs_mutex r = false ->
  use_count r h = S (S c) ->
  exists r',
    sptr_release (Some h) r = (Val tt, r') /\
    use_count r' h = S c /\
    (forall x, x <> h -> use_count r' x = use_count r x) /\
    _devs r' = _devs r /\ opened r' = opened r /\ trace r' = trace r.
Proof.
  intros Hm Hc.
  destruct (release_outcomes r h Hm) as (r' & Hrel & _ & _ & Hcount & Hcase).
  rewrite Hc in Hcase, Hcount. cbn [Nat.eqb Nat.pred] in Hcase, Hcount.
  exists r'. split; [exact Hrel|]. split.
  - rewrite Hcount. now rewrite Nat.eqb_refl.
  - split; [|exact Hcase]. intros x Hx. rewrite Hcount.
    apply Nat.eqb_neq in Hx. now rewrite Hx.
Qed.

(** X15.  A key whose descriptor matches no cached device makes a new
    native connection: the handle is a new one, with strong count 1, added
    at the end of [_devs], and the counts of the cached handles are
    untouched. *)
Theorem open_of_other_device_connects
    (r : registry) (name : string) (info found : devinfo) :
  registry_ok r ->
  bladerf_get_devinfo_from_str name = Some info ->
  (forall d i, In d (_devs r) -> find_conn (opened r) d = Some i ->
               bladerf_devinfo_matches info i = false) ->
  probe info (opened r) = Some found ->
  exists h r1,
    open_ name r = (Val (Some h), r1) /\
    ~ In h (_devs r) /\
    _devs r1 = _devs r ++ [h] /\
    use_count r1 h = 1%nat /\
    (forall x, In x (_devs r) -> use_count r1 x = use_count r x) /\
    find_conn (opened r1) h = Some found /\
    trace r1 = trace r ++ [mutex_lock; native_open h; mutex_unlock].
Proof.
  intros Hok Hfrom Hnomatch Hprobe. pose proof Hok as (Hm & Hent & Hfresh).
  assert (Hfind : find (cached info r) (_devs r) = None).
  { destruct (find (cached info r) (_devs r)) as [d|] eqn:Hf; [|reflexivity].
    apply find_some in Hf as [Hin Hc]. unfold cached_match in Hc.
    destruct (find_conn (opened r) d) as [i|] eqn:Hi; [|discriminate].
    rewrite (Hnomatch d i Hin Hi) in Hc. discriminate. }
  destruct (open_new _ _ _ probe r name info found Hok Hfrom Hfind Hprobe)
    as (r1 & Ho & Hd & Hc & Hop & Hn & Hmu & Htr).
  cbv zeta in *. set (h := next_handle r) in *.
  destruct (Hfresh h (Nat.le_refl _)) as [Hz Hnone].
  assert (Hnin : ~ In h (_devs r)).
  { intros Hin. destruct (Hent h Hin) as [Hpos _]. lia. }
  exists h, r1. split; [exact Ho|]. split; [exact Hnin|].
  split; [exact Hd|]. split; [rewrite Hc; now rewrite Nat.eqb_refl|].
  split; [|split; [|exact Htr]].
  - intros x Hx. rewrite Hc. destruct (Nat.eqb x h) eqn:Hxh; [|reflexivity].
    apply Nat.eqb_eq in Hxh. subst x. contradiction.
  - rewrite Hop, find_conn_app, Hnone. cbn [find_conn].
    now rewrite Nat.eqb_refl.
Qed.

(** libbladeRF opens a device that matches the descriptor it was asked
    for. *)
Hypothesis probe_matches :
  forall info conns found,
    probe info conns = Some found ->
    bladerf_devinfo_matches info found = true.

Lemma filter_keeps_all {A} (f : A -> bool) (l : list A) :
  (forall x, In x l -> f x = true) -> filter f l = l.
Proof.
  induction l as [|a l IH]; intros Hall; [reflexivity|].
  cbn [filter]. rewrite (Hall a (or_introl eq_refl)).
  f_equal. apply IH. intros x Hx. apply Hall. now right.
Qed.

Lemma find_conn_none_filter (l : list (raw_dev * devinfo)) (h : raw_dev) :
  find_conn l h = None ->
  filter (fun c => negb (Nat.eqb (fst c) h)) l = l.
Proof.
  induction l as [|[d i] l IH]; intros Hnone; [reflexivity|].
  cbn [find_conn] in Hnone. cbn [filter fst].
  destruct (Nat.eqb d h); [discriminate|]. cbn [negb]. f_equal. now apply IH.
Qed.

Lemma reopen_finds_handle (r r1 : registry) k1 p1 p2 h :
  registry_ok r ->
  bladerf_get_devinfo_from_str k1 = Some p1 ->
  (forall d, bladerf_devinfo_matches p2 d = bladerf_devinfo_matches p1 d) ->
  open_ k1 r = (Val (Some h), r1) ->
  find (cached p2 r1) (_devs r1) = Some h.
Proof.
  intros Hok Hk1 Hsame Hopen. pose proof Hok as (Hm & Hent & Hfresh).
  destruct (open_facts _ _ _ _ probe_matches r r1 k1 p1 h Hok Hk1 Hopen)
    as (_ & _ & [(Hin & Hfind & Hd & Hc & Hop & Htr)
                |(Hnin & Hfind & Hd & Hz & Hc & (found & Hop & Hmatch)
                  & Hnone & Htr)]).
  - rewrite Hd, <- Hfind. apply find_same. intros x _.
    unfold cached_match. rewrite Hop.
    destruct (find_conn (opened r) x); [apply Hsame|reflexivity].
  - rewrite Hd. apply find_last.
    + rewrite <- Hfind. apply find_same. intros x Hx.
      unfold cached_match. rewrite Hop, find_conn_app.
      destruct (Hent x Hx) as [_ [i Hi]]. rewrite Hi. apply Hsame.
    + unfold cached_match. rewrite Hop, find_conn_app, Hnone.
      cbn [find_conn]. rewrite Nat.eqb_refl, Hsame. exact Hmatch.
Qed.


(** X17.  The handle [open] returns is an entry of [_devs] with a positive
    strong count, and the descriptor of its connection matches the
    descriptor of the key, whether the handle came from the cache or from
    a new connection. *)
Theorem open_returns_matching_handle
    (r r1 : registry) (name : string) (info : devinfo) (h : raw_dev) :
  registry_ok r ->
  bladerf_get_devinfo_from_str name = Some info ->
  open_ name r = (Val (Some h), r1) ->
  In h (_devs r1) /\
  (0 < use_count r1 h)%nat /\
  exists i, find_conn (opened r1) h = Some i /\
            bladerf_devinfo_matches info i = true.
Proof.
  intros Hok Hfrom Hopen.
  destruct (open_facts _ _ _ _ probe_matches r r1 name info h Hok Hfrom Hopen)
    as (_ & _ & [(Hin & Hfind & Hd & Hc & Hop & _)
                |(_ & _ & Hd & _ & Hc & (found & Hop & Hmatch) & Hnone & _)]).
  - split; [now rewrite Hd|]. split; [lia|].
    apply find_some in Hfind as [_ Hm]. unfold cached_match in Hm.
    rewrite Hop. destruct (find_conn (opened r) h) as [i|]; [|discriminate].
    eauto.
  - split; [rewrite Hd; apply in_or_app; right; now left|]. split; [lia|].
    exists found. split; [|exact Hmatch].
    rewrite Hop, find_conn_app, Hnone. cbn [find_conn]. now rewrite Nat.eqb_refl.
Qed.

End RegistryMore.

(** ** The version test and the device identifier *)

Lemma version_greater_or_equal_spec (v : bladerf_version) (M m p : Z) :
  0 <= minor v < 2 ^ 16 -> 0 <= patch v < 2 ^ 16 ->
  0 <= m < 2 ^ 16 -> 0 <= p < 2 ^ 16 ->
  version_greater_or_equal v M m p
  = (version_number M m p <=? version_number (major v) (minor v) (patch v)).
Proof.
  unfold version_greater_or_equal, version_number. intros Hm Hp Hm' Hp'.
  rewrite Z.gtb_ltb, Z.gtb_ltb, Z.geb_leb.
  destruct (Z.ltb_spec M (major v)), (Z.eqb_spec (major v) M),
    (Z.ltb_spec m (minor v)), (Z.eqb_spec (minor v) m),
    (Z.leb_spec p (patch v)); cbn [andb]; symmetry;
    first [apply Z.leb_le; lia | apply Z.leb_gt; lia].
Qed.

(** X18.  For fields that fit 16 bits the version test is the comparison
    of the versions as numbers: it holds exactly when the library version
    is at least [major.minor.patch] in the order that compares the major
    number first, then the minor number, then the patch level. *)
Theorem version_test_is_version_order (v : bladerf_version) (M m p : Z) :
  0 <= minor v < 2 ^ 16 -> 0 <= patch v < 2 ^ 16 ->
  0 <= m < 2 ^ 16 -> 0 <= p < 2 ^ 16 ->
  version_greater_or_equal v M m p = true
  <-> version_number M m p
      <= version_number (major v) (minor v) (patch v).
Proof.
  intros Hm Hp Hm' Hp'.
  rewrite version_greater_or_equal_spec by assumption. apply Z.leb_le.
Qed.

Section DeviceNameFacts.

Variable lexical_cast_unsigned_int : string -> option Z.
Variable library_version : bladerf_version.

(** X19.  The device identifier [init] hands to [open]: empty (any
    device) without a [bladerf] argument or with an empty one; an instance
    selector only for a value of one or two characters, and only if it
    casts to a number; a serial selector for a longer value, which a
    library older than 1.4.1 accepts only when it has the 32 characters of
    a full serial number and otherwise answers with an exception. *)
Theorem init_device_name_selection (dict : dict_t) :
  0 <= minor library_version < 2 ^ 16 ->
  0 <= patch library_version < 2 ^ 16 ->
  init_device_name lexical_cast_unsigned_int library_version dict =
  match dict_find dict "bladerf" with
  | None => Val EmptyString
  | Some value =>
      if strlen value =? 0 then Val EmptyString
      else if strlen value <=? 2 then
        match lexical_cast_unsigned_int value with
        | Some n => Val ("*:instance=" ++ decimal n)%string
        | None => Exn "Failed to use the value as device number"
        end
      else if (version_number 1 4 1
               <=? version_number (major library_version)
                                  (minor library_version)
                                  (patch library_version))
              || (strlen value =? 32)
      then Val ("*:serial=" ++ value)%string
      else Exn "A full serial number must be supplied with this libbladeRF"
  end.
Proof.
  intros Hm Hp. unfold init_device_name, dict_count, dict_get.
  destruct (dict_find dict "bladerf") as [value|]; [|reflexivity].
  cbn [Z.eqb negb].
  rewrite version_greater_or_equal_spec by (try assumption; lia).
  assert (Hlen : 0 <= strlen value) by (unfold strlen; lia).
  rewrite Z.gtb_ltb.
  destruct (Z.ltb_spec 0 (strlen value)), (Z.eqb_spec (strlen value) 0);
    try lia; reflexivity.
Qed.

End DeviceNameFacts.

(** ** Clock source and corrections *)

Section ControlFacts.

Variable libbladeRF : list ctl_call -> ctl_call -> Z * Z.
Variable complex : Type.
Variable dcoff_i dcoff_q gain_of phase_of : complex -> Z.

Lemma clock_mode_facts (source : string) :
  let mode := if existsb (String.eqb source) get_clock_sources
              then Z.of_nat (find_index source get_clock_sources)
              else BLADERF_VCTCXO_TAMER_DISABLED in
  (if Z.of_nat (find_index source get_clock_sources)
      <? Z.of_nat (List.length get_clock_sources)
   then Z.of_nat (find_index source get_clock_sources)
   else BLADERF_VCTCXO_TAMER_DISABLED) = mode /\
  nth (Z.to_nat mode) get_clock_sources EmptyString
  = (if existsb (String.eqb source) get_clock_sources
     then source else "internal"%string) /\
  0 <= mode < 3.
Proof.
  cbv zeta. unfold get_clock_sources. cbn [existsb find_index List.length].
  rewrite (String.eqb_sym source "internal"),
    (String.eqb_sym source "external_1pps"),
    (String.eqb_sym source "external").
  destruct (String.eqb_spec "internal" source) as [<-|H1];
    [cbn; repeat split; try reflexivity; lia|].
  destruct (String.eqb_spec "external_1pps" source) as [<-|H2];
    [cbn; repeat split; try reflexivity; lia|].
  destruct (String.eqb_spec "external" source) as [<-|H3];
    [cbn; repeat split; try reflexivity; lia|].
  cbn. repeat split; try reflexivity; lia.
Qed.

Lemma set_clock_source_shape (source : string) (calls : list ctl_call) :
  let mode := if existsb (String.eqb source) get_clock_sources
              then Z.of_nat (find_index source get_clock_sources)
              else BLADERF_VCTCXO_TAMER_DISABLED in
  set_clock_source libbladeRF source calls
  = (if fst (libbladeRF calls (set_vctcxo_tamer_mode mode)) =? 0
     then Val tt else Exn "Failed to set VCTCXO tamer mode",
     calls ++ [set_vctcxo_tamer_mode mode]).
Proof.
  cbv zeta. destruct (clock_mode_facts source) as (Hmode & _ & _).
  unfold set_clock_source. cbv zeta. rewrite Hmode.
  unfold call_ctl, bind, throw, ret.
  destruct (fst (libbladeRF calls (set_vctcxo_tamer_mode _)) =? 0);
    reflexivity.
Qed.

Lemma get_clock_source_shape (calls : list ctl_call) :
  let status := fst (libbladeRF calls get_vctcxo_tamer_mode) in
  let mode := snd (libbladeRF calls get_vctcxo_tamer_mode) in
  get_clock_source libbladeRF calls
  = (if negb (status =? 0) then Exn "Failed to get VCTCXO tamer mode"
     else if mode =? 0 then Val "internal"%string
     else if mode =? 1 then Val "external_1pps"%string
     else if mode =? 2 then Val "external"%string
     else Exn "vector::_M_range_check",
     calls ++ [get_vctcxo_tamer_mode]).
Proof.
  cbv zeta. unfold get_clock_source, call_ctl, bind, vector_at, throw, ret.
  destruct (libbladeRF calls get_vctcxo_tamer_mode) as [status mode].
  cbn [fst snd]. destruct (status =? 0); cbn [negb]; [|reflexivity].
  cbn [List.length get_clock_sources].
  destruct (Z.eqb_spec mode 0) as [->|H0]; [reflexivity|].
  destruct (Z.eqb_spec mode 1) as [->|H1]; [reflexivity|].
  destruct (Z.eqb_spec mode 2) as [->|H2]; [reflexivity|].
  replace ((0 <=? mode) && (mode <? Z.of_nat 3)) with false
    by (symmetry; lia).
  reflexivity.
Qed.

(** X20.  [set_clock_source] writes the position of the name among the
    clock sources as the tamer mode, and mode 0 ("internal") for a name
    that is none of them, without complaint; it throws exactly when the
    device refuses.  On a device that reads back the mode just written,
    [get_clock_source] returns the name that was set, or "internal" for a
    name that is not a clock source. *)
Theorem clock_source_round_trip (source : string) (calls : list ctl_call) :
  let known := existsb (String.eqb source) get_clock_sources in
  let mode := if known then Z.of_nat (find_index source get_clock_sources)
              else BLADERF_VCTCXO_TAMER_DISABLED in
  set_clock_source libbladeRF source calls
  = (if fst (libbladeRF calls (set_vctcxo_tamer_mode mode)) =? 0
     then Val tt else Exn "Failed to set VCTCXO tamer mode",
     calls ++ [set_vctcxo_tamer_mode mode]) /\
  (fst (libbladeRF calls (set_vctcxo_tamer_mode mode)) = 0 ->
   libbladeRF (calls ++ [set_vctcxo_tamer_mode mode]) get_vctcxo_tamer_mode
   = (0, mode) ->
   (set_clock_source libbladeRF source ;; get_clock_source libbladeRF) calls
   = (Val (if known then source else "internal"%string),
      calls ++ [set_vctcxo_tamer_mode mode; get_vctcxo_tamer_mode])).
Proof.
  cbv zeta. destruct (clock_mode_facts source) as (_ & Hname & Hrange).
  pose proof (set_clock_source_shape source calls) as Hset.
  cbv zeta in Hname, Hrange, Hset.
  set (mode := if existsb (String.eqb source) get_clock_sources
               then Z.of_nat (find_index source get_clock_sources)
               else BLADERF_VCTCXO_TAMER_DISABLED) in *.
  split; [exact Hset|]. intros Hok Hget.
  unfold bind at 1. rewrite Hset, Hok. cbn [Z.eqb].
  unfold get_clock_source, call_ctl, bind, vector_at, throw, ret.
  rewrite Hget. cbn [fst snd Z.eqb negb].
  replace ((0 <=? mode) && (mode <? Z.of_nat (List.length get_clock_sources)))
    with true by (symmetry; cbn [List.length get_clock_sources]; lia).
  rewrite Hname, <- app_assoc. reflexivity.
Qed.

(** X21.  [get_clock_source] throws when the device call fails and also
    when the device reports a mode that is none of the three clock
    sources, [BLADERF_VCTCXO_TAMER_INVALID] among them: the mode indexes
    the list of names with a range check.  A name it does return selects,
    given back to [set_clock_source], the mode that was read. *)
Theorem get_clock_source_checks_mode (calls : list ctl_call) :
  let status := fst (libbladeRF calls get_vctcxo_tamer_mode) in
  let mode := snd (libbladeRF calls get_vctcxo_tamer_mode) in
  get_clock_source libbladeRF calls
  = (if negb (status =? 0) then Exn "Failed to get VCTCXO tamer mode"
     else if mode =? 0 then Val "internal"%string
     else if mode =? 1 then Val "external_1pps"%string
     else if mode =? 2 then Val "external"%string
     else Exn "vector::_M_range_check",
     calls ++ [get_vctcxo_tamer_mode]) /\
  forall name calls',
    get_clock_source libbladeRF calls = (Val name, calls') ->
    snd (set_clock_source libbladeRF name calls')
    = calls ++ [get_vctcxo_tamer_mode; set_vctcxo_tamer_mode mode].
Proof.
  cbv zeta. pose proof (get_clock_source_shape calls) as Hget.
  cbv zeta in Hget. split; [exact Hget|].
  intros name calls' Hval. rewrite Hget in Hval.
  destruct (fst (libbladeRF calls get_vctcxo_tamer_mode) =? 0);
    cbn [negb] in Hval; [|discriminate Hval].
  destruct (Z.eqb_spec (snd (libbladeRF calls get_vctcxo_tamer_mode)) 0)
    as [->|H0];
    [injection Hval as <- <-; rewrite set_clock_source_shape, <- app_assoc;
     reflexivity|].
  destruct (Z.eqb_spec (snd (libbladeRF calls get_vctcxo_tamer_mode)) 1)
    as [->|H1];
    [injection Hval as <- <-; rewrite set_clock_source_shape, <- app_assoc;
     reflexivity|].
  destruct (Z.eqb_spec (snd (libbladeRF calls get_vctcxo_tamer_mode)) 2)
    as [->|H2];
    [injection Hval as <- <-; rewrite set_clock_source_shape, <- app_assoc;
     reflexivity|].
  discriminate Hval.
Qed.

Lemma correction_pair_shape (c1 c2 : ctl_call) (calls : list ctl_call) :
  (r1 <- call_ctl libbladeRF c1 ;;
   r2 <- call_ctl libbladeRF c2 ;;
   ret (Z.lor (fst r1) (fst r2))) calls
  = (Val (Z.lor (fst (libbladeRF calls c1))
                (fst (libbladeRF (calls ++ [c1]) c2))),
     calls ++ [c1; c2]).
Proof.
  unfold call_ctl, bind, ret. now rewrite <- app_assoc.
Qed.

(** X22.  [set_dc_offset] and [set_iq_balance] always make both
    correction calls, I before Q and gain before phase, also when the
    first one fails; the status they combine is 0 exactly when both calls
    returned 0, and the sink functions throw exactly when it is not. *)
Theorem corrections_make_both_calls
    (module : bladerf_module) (value : complex) (calls : list ctl_call) :
  let i := set_correction module BLADERF_CORR_LMS_DCOFF_I (dcoff_i value) in
  let q := set_correction module BLADERF_CORR_LMS_DCOFF_Q (dcoff_q value) in
  let g := set_correction module BLADERF_CORR_FPGA_GAIN (gain_of value) in
  let ph := set_correction module BLADERF_CORR_FPGA_PHASE (phase_of value) in
  (exists ret_,
     bladerf_common_set_dc_offset libbladeRF complex dcoff_i dcoff_q
                                  module value calls
     = (Val ret_, calls ++ [i; q]) /\
     (ret_ = 0 <-> fst (libbladeRF calls i) = 0 /\
                   fst (libbladeRF (calls ++ [i]) q) = 0)) /\
  (exists ret_,
     bladerf_common_set_iq_balance libbladeRF complex gain_of phase_of
                                   module value calls
     = (Val ret_, calls ++ [g; ph]) /\
     (ret_ = 0 <-> fst (libbladeRF calls g) = 0 /\
                   fst (libbladeRF (calls ++ [g]) ph) = 0)) /\
  (module = BLADERF_MODULE_TX ->
   set_dc_offset libbladeRF complex dcoff_i dcoff_q value calls
   = (if (fst (libbladeRF calls i) =? 0)
         && (fst (libbladeRF (calls ++ [i]) q) =? 0)
      then Val tt else Exn "set_dc_offset could not set dc offset",
      calls ++ [i; q]) /\
   set_iq_balance libbladeRF complex gain_of phase_of value calls
   = (if (fst (libbladeRF calls g) =? 0)
         && (fst (libbladeRF (calls ++ [g]) ph) =? 0)
      then Val tt else Exn "set_iq_balance could not set iq balance",
      calls ++ [g; ph])).
Proof.
  cbv zeta.
  assert (Hlor : forall a b, (Z.lor a b =? 0) = (a =? 0) && (b =? 0)).
  { intros a b. destruct (Z.eqb_spec (Z.lor a b) 0) as [H|H].
    - apply Z.lor_eq_0_iff in H as [-> ->]. reflexivity.
    - destruct (Z.eqb_spec a 0) as [->|Ha]; [|reflexivity].
      destruct (Z.eqb_spec b 0) as [->|Hb]; [|reflexivity].
      now contradiction H. }
  split; [|split].
  - eexists. split.
    + unfold bladerf_common_set_dc_offset. cbv zeta.
      apply correction_pair_shape.
    + apply Z.lor_eq_0_iff.
  - eexists. split.
    + unfold bladerf_common_set_iq_balance. cbv zeta.
      apply correction_pair_shape.
    + apply Z.lor_eq_0_iff.
  - intros ->. split.
    + unfold set_dc_offset, bladerf_common_set_dc_offset. cbv zeta.
      unfold bind at 1. rewrite correction_pair_shape, Hlor.
      unfold throw, ret.
      destruct ((fst _ =? 0) && (fst _ =? 0)); reflexivity.
    + unfold set_iq_balance, bladerf_common_set_iq_balance. cbv zeta.
      unfold bind at 1. rewrite correction_pair_shape, Hlor.
      unfold throw, ret.
      destruct ((fst _ =? 0) && (fst _ =? 0)); reflexivity.
Qed.

End ControlFacts.

(** ** The device list *)

(** X23.  A serial number of 32 characters is shown as its first four
    and its last four characters around three dots, 11 characters in all;
    a serial number of any other length is shown as it is. *)
Theorem shorten_serial_keeps_ends (serial : string) :
  (String.length serial = 32%nat ->
   shorten_serial serial
   = (substring 0 4 serial ++ "..." ++ substring 28 4 serial)%string /\
   String.length (shorten_serial serial) = 11%nat /\
   substring 0 4 (shorten_serial serial) = substring 0 4 serial /\
   substring 7 4 (shorten_serial serial) = substring 28 4 serial) /\
  (String.length serial <> 32%nat -> shorten_serial serial = serial).
Proof.
  split.
  - intros H.
    do 32 (destruct serial as [|? serial]; [discriminate H|]).
    destruct serial; [|discriminate H].
    repeat split; reflexivity.
  - intros H. unfold shorten_serial.
    destruct (Nat.eqb_spec (String.length serial) 32); [contradiction|].
    reflexivity.
Qed.

(** X24.  [devices] yields one entry for each device of the list the
    library returned, in the order of the list; the entry of a device
    starts with [bladerf=] and its instance number, so it can be given
    back as the device argument; no entry when the library reports no
    device or an error (a negative count). *)
Theorem devices_lists_every_device
    (n_devices : Z) (device_list : list devinfo_entry) :
  (0 <= n_devices -> n_devices = Z.of_nat (List.length device_list)) ->
  (n_devices <= 0 -> devices n_devices device_list = []) /\
  (0 <= n_devices ->
   List.length (devices n_devices device_list) = List.length device_list /\
   forall (i : nat) (d : devinfo_entry),
     nth_error device_list i = Some d ->
     exists entry,
       nth_error (devices n_devices device_list) i = Some entry /\
       prefix ("bladerf=" ++ decimal (entry_instance d) ++ ",label='") entry
       = true).
Proof.
  intros Hn. split.
  - intros Hle. unfold devices.
    destruct (Z.gtb_spec n_devices 0); [lia | reflexivity].
  - intros Hge. specialize (Hn Hge).
    assert (Hall : devices n_devices device_list
                   = map device_entry device_list).
    { unfold devices. destruct (Z.gtb_spec n_devices 0) as [Hpos|Hz].
      - rewrite Hn, Nat2Z.id, firstn_all. reflexivity.
      - destruct device_list; [reflexivity | cbn in Hn; lia]. }
    rewrite Hall. split; [apply length_map|].
    intros i d Hd. exists (device_entry d). split.
    + now rewrite nth_error_map, Hd.
    + unfold device_entry. cbv zeta.
      change ("bladerf=" ++ decimal (entry_instance d) ++ ",label='")%string
        with ("bladerf=" ++ (decimal (entry_instance d) ++ ",label='"))%string.
      cbn [append]. repeat (destruct (Ascii.ascii_dec _ _) as [_|N];
                            [|now contradiction N]).
      set (tail := (if negb _ then _ else _)%string).
      generalize (decimal (entry_instance d)). intros a.
      induction a as [|c a IH].
      * cbn. repeat (destruct (Ascii.ascii_dec _ _) as [_|N];
                     [|now contradiction N]). reflexivity.
      * cbn [append prefix].
        destruct (Ascii.ascii_dec c c) as [_|N]; [exact IH | now contradiction N].
Qed.

(** * Instances of the further facts *)

Lemma shared_registry_ok : registry_ok shared_registry.
Proof.
  split; [reflexivity|]. split.
  - intros d [<-|[]]. split; [cbn; lia|]. now exists "*:instance=0"%string.
  - intros d Hd. cbn in Hd. destruct d as [|d]; [lia|]. split; reflexivity.
Qed.

(** A burst that starts and ends in one block leaves the sink Idle. *)
Lemma transmit_with_tags_success_state_witness :
  transmit_with_tags always_ok 100 0 [sob_at 10; eob_at 60] metadata_sink
  = (Val 0,
     mk_sink false true 0 4096 32 4096 16 3000
       [sync_tx (conv_buf_at 20) 51 (Some 5) 3000;
        sync_tx (local_buf [0; 0; 0; 0; 0; 0; 0; 0]) 4 (Some 2) 3000] [])
  /\ false = burst_state_after [sob_at 10; eob_at 60] false.
Proof.
  split; [reflexivity|].
  exact (transmit_with_tags_success_state always_ok 100 0
           [sob_at 10; eob_at 60] metadata_sink
           (mk_sink false true 0 4096 32 4096 16 3000
              [sync_tx (conv_buf_at 20) 51 (Some 5) 3000;
               sync_tx (local_buf [0; 0; 0; 0; 0; 0; 0; 0]) 4 (Some 2) 3000]
              [])
           eq_refl).
Defined.

(** A block with a tag of another key, while Idle. *)
Lemma transmit_with_tags_idle_sends_nothing_witness :
  exists s',
    transmit_with_tags always_ok 100 0 [other_tag_at 5] metadata_sink
    = (Val 0, s') /\
    dev_calls s' = [] /\ _in_burst s' = false.
Proof.
  exact (transmit_with_tags_idle_sends_nothing always_ok 100 0
           [other_tag_at 5] metadata_sink eq_refl eq_refl).
Defined.

(** A tagged block of 10 samples without metadata mode. *)
Lemma work_without_metadata_sends_whole_block_witness :
  exists s1 v s2,
    work_transmit always_ok (fun _ => true) 10 0 [sob_at 3] fresh_sink
    = (Val 0, s1) /\
    work always_ok (fun _ => true) 3 10 0 [sob_at 3] fresh_sink
    = (Val v, s2) /\
    dev_calls s2 = [sync_tx (conv_buf_at 0) 10 None 0] /\
    _in_burst s2 = false.
Proof.
  exact (work_without_metadata_sends_whole_block always_ok (fun _ => true) 3
           10 0 [sob_at 3] fresh_sink eq_refl
           (or_intror eq_refl)).
Defined.

(** [enable_metadata=0] switches metadata mode on. *)
Lemma init_metadata_is_presence_of_key_witness :
  init_stream_config decimal_cast decimal_cast
    [("enable_metadata", "0")]%string fresh_sink
  = (Val tt, metadata_sink) /\
  _use_metadata metadata_sink = true.
Proof.
  split; [reflexivity|].
  exact (init_metadata_is_presence_of_key decimal_cast decimal_cast
           [("enable_metadata", "0")]%string fresh_sink metadata_sink
           eq_refl).
Defined.


Lemma registry_invariant_is_kept_witness :
  registry_ok (snd (example_open "*:instance=1" shared_registry)) /\
  registry_ok (snd (sptr_release (Some 0%nat) shared_registry)).
Proof.
  exact (registry_invariant_is_kept string (fun k => Some k) String.eqb
           (fun p _ => Some p) shared_registry "*:instance=1"%string
           (Some 0%nat) shared_registry_ok).
Defined.


Lemma release_of_shared_handle_keeps_connection_witness :
  exists r',
    sptr_release (Some 0%nat) shared_registry = (Val tt, r') /\
    use_count r' 0%nat = 1%nat /\
    (forall x, x <> 0%nat -> use_count r' x = use_count shared_registry x) /\
    _devs r' = _devs shared_registry /\
    opened r' = opened shared_registry /\
    trace r' = trace shared_registry.
Proof.
  exact (release_of_shared_handle_keeps_connection string shared_registry
           0%nat 0%nat eq_refl eq_refl).
Defined.

(** A second radio beside the shared one. *)
Lemma open_of_other_device_connects_witness :
  exists h r1,
    example_open "*:instance=1" shared_registry = (Val (Some h), r1) /\
    ~ In h (_devs shared_registry) /\
    _devs r1 = _devs shared_registry ++ [h] /\
    use_count r1 h = 1%nat /\
    (forall x, In x (_devs shared_registry) ->
               use_count r1 x = use_count shared_registry x) /\
    find_conn (opened r1) h = Some "*:instance=1"%string /\
    trace r1 = trace shared_registry
               ++ [mutex_lock; native_open h; mutex_unlock].
Proof.
  refine (open_of_other_device_connects string (fun k => Some k) String.eqb
            (fun p _ => Some p) shared_registry "*:instance=1"%string
            "*:instance=1"%string "*:instance=1"%string
            shared_registry_ok eq_refl _ eq_refl).
  intros d i [<-|[]] [= <-]. reflexivity.
Defined.


Lemma open_returns_matching_handle_witness :
  In 0%nat (_devs (snd (example_open "*:instance=0" shared_registry))) /\
  (0 < use_count (snd (example_open "*:instance=0" shared_registry)) 0%nat)%nat
  /\
  exists i,
    find_conn (opened (snd (example_open "*:instance=0" shared_registry)))
              0%nat = Some i /\
    String.eqb "*:instance=0" i = true.
Proof.
  exact (open_returns_matching_handle string (fun k => Some k) String.eqb
           (fun p _ => Some p) example_probe_matches
           shared_registry
           (snd (example_open "*:instance=0" shared_registry))
           "*:instance=0"%string "*:instance=0"%string 0%nat
           shared_registry_ok eq_refl eq_refl).
Defined.

(** libbladeRF 1.5.0 passes the test for 1.4.1. *)
Lemma version_test_is_version_order_witness :
  version_greater_or_equal (mk_version 1 5 0) 1 4 1 = true
  <-> version_number 1 4 1 <= version_number 1 5 0.
Proof.
  apply (version_test_is_version_order (mk_version 1 5 0) 1 4 1);
    cbn; lia.
Defined.

(** A part of a serial number with a library older than 1.4.1. *)
Lemma init_device_name_selection_witness :
  init_device_name decimal_cast old_library [("bladerf", "0123")]%string
  = Exn "A full serial number must be supplied with this libbladeRF".
Proof.
  refine (eq_trans
            (init_device_name_selection decimal_cast old_library
               [("bladerf", "0123")]%string _ _) eq_refl);
    cbn; lia.
Defined.

(** Setting ["external"] on a device that keeps the mode and reading it
    back. *)
Lemma clock_source_round_trip_witness :
  (set_clock_source tamer_device "external" ;;
   get_clock_source tamer_device) []
  = (Val "external"%string,
     [set_vctcxo_tamer_mode 2; get_vctcxo_tamer_mode]).
Proof.
  exact (proj2 (clock_source_round_trip tamer_device "external"%string [])
               eq_refl eq_refl).
Defined.

Lemma shorten_serial_keeps_ends_witness :
  shorten_serial "0123456789abcdef0123456789abcdef" = "0123...cdef"%string.
Proof.
  exact (proj1 (proj1 (shorten_serial_keeps_ends
                         "0123456789abcdef0123456789abcdef"%string)
                      eq_refl)).
Defined.

Lemma devices_lists_every_device_witness :
  List.length (devices 2 two_devices) = 2%nat /\
  exists entry,
    nth_error (devices 2 two_devices) 1 = Some entry /\
    prefix "bladerf=1,label='" entry = true.
Proof.
  destruct (proj2 (devices_lists_every_device 2 two_devices
                     (fun _ => eq_refl)) ltac:(lia)) as [Hlen Hentry].
  split; [exact Hlen|].
  exact (Hentry 1%nat (mk_entry 1 "") eq_refl).
Defined.

(** Reading ["external"] from a device in mode 2 and setting it again. *)
Lemma get_clock_source_checks_mode_witness :
  get_clock_source tamer_device [set_vctcxo_tamer_mode 2]
  = (Val "external"%string,
     [set_vctcxo_tamer_mode 2; get_vctcxo_tamer_mode]) /\
  snd (set_clock_source tamer_device "external"
         [set_vctcxo_tamer_mode 2; get_vctcxo_tamer_mode])
  = [set_vctcxo_tamer_mode 2; get_vctcxo_tamer_mode; set_vctcxo_tamer_mode 2].
Proof.
  split; [reflexivity|].
  exact (proj2 (get_clock_source_checks_mode tamer_device
                  [set_vctcxo_tamer_mode 2])
               "external"%string
               [set_vctcxo_tamer_mode 2; get_vctcxo_tamer_mode] eq_refl).
Defined.
